(** * RESCO traffic-signal benchmark: the episode orchestrator and its agents

    A shallow embedding of [resco_benchmark/multi_signal.py] (class
    [MultiSignal]) and of [resco_benchmark/agents/fix_time.py] (class
    [FixedPhaseAgent]), with the properties the specification states
    about them.

    Python values are embedded as follows: integers as [Z], [str] as
    [string], lists and tuples as [list], insertion-ordered [dict]s keyed by
    identifiers as association lists with unique keys ([dict]), objects as
    records, and a method that mutates [self] or raises as a function from
    the state to an [outcome] that carries the state reached. *)

From Stdlib Require Import ZArith List String Ascii Bool Lia DecimalString.
Import ListNotations.
Local Open Scope Z_scope.

(** ** Python values *)

(** An insertion-ordered [dict] keyed by identifiers: iteration follows
    insertion order and assigning to a key that is present keeps its
    position, which [ts_order] and the order of the calls in [step] depend
    on. *)
Definition dict (V : Type) : Type := list (string * V).

Module PyDict.
Section Ops.
Context {V : Type}.

(** [d.get(k)], [None] standing for an absent key *)
Fixpoint get (d : dict V) (k : string) : option V :=
  match d with
  | [] => None
  | (k', v) :: r => if String.eqb k k' then Some v else get r k
  end.

(** [d[k] = v] *)
Fixpoint set (d : dict V) (k : string) (v : V) : dict V :=
  match d with
  | [] => [(k, v)]
  | (k', v') :: r =>
      if String.eqb k k' then (k', v) :: r else (k', v') :: set r k v
  end.

(** [list(d)], the keys in iteration order *)
Definition keys (d : dict V) : list string := map fst d.

End Ops.
End PyDict.

(** [a in b] on strings: [a] occurs in [b] as a substring *)
Fixpoint str_in (a b : string) : bool :=
  String.prefix a b ||
  match b with
  | EmptyString => false
  | String _ r => str_in a r
  end.

Definition lower_ascii (c : ascii) : ascii :=
  let n := nat_of_ascii c in
  if (65 <=? n)%nat && (n <=? 90)%nat then ascii_of_nat (n + 32) else c.

(** [s.lower()] on ASCII text *)
Fixpoint lower (s : string) : string :=
  match s with
  | EmptyString => EmptyString
  | String c r => String (lower_ascii c) (lower r)
  end.

(** [str(n)] on an integer *)
Definition str_int (n : Z) : string := NilZero.string_of_int (Z.to_int n).

Definition ends_with_sep (a : string) : bool :=
  match String.get (String.length a - 1) a with
  | Some c => Ascii.eqb c "/"
  | None => false
  end.

(** [os.path.join(a, b)] on POSIX paths *)
Definition os_path_join (a b : string) : string :=
  if String.prefix "/" b then b
  else if String.eqb a "" || ends_with_sep a then (a ++ b)%string
  else (a ++ "/" ++ b)%string.

(** a named Python function *)
Record PyFun (A B : Type) : Type := mkPyFun {
  fn_name : string;          (* [f.__name__] *)
  call : A -> B
}.
Arguments mkPyFun {A B} fn_name call.
Arguments fn_name {A B} p.
Arguments call {A B} p a.

(** ** Exceptions and the state-and-exception monad *)

Inductive exn : Type :=
| KeyError (k : string)          (* a [dict] has no such identifier *)
| KeyErrorInt (i : Z)            (* an identifier-keyed [dict] indexed by a position *)
| IndexError                     (* list index out of range *)
| TypeError                      (* a list indexed by an identifier *)
| ZeroDivisionError
| ProtocolError (ts : string) (a : Z).  (* phase index outside the phase table *)

(** A call either returns a value or raises; both leave a state behind,
    since what was mutated before a [raise] stays mutated. *)
Inductive outcome (S A : Type) : Type :=
| Ok (a : A) (s : S)
| Raise (e : exn) (s : S).
Arguments Ok {S A} a s.
Arguments Raise {S A} e s.

Definition M (S A : Type) : Type := S -> outcome S A.

Definition ret {S A} (a : A) : M S A := fun s => Ok a s.
Definition raise {S A} (e : exn) : M S A := fun s => Raise e s.
Definition bind {S A B} (m : M S A) (f : A -> M S B) : M S B :=
  fun s => match m s with
           | Ok a s' => f a s'
           | Raise e s' => Raise e s'
           end.
Definition gets {S A} (f : S -> A) : M S A := fun s => Ok (f s) s.
Definition modify {S} (f : S -> S) : M S unit := fun s => Ok tt (f s).
(** a partial lookup: [Some v] continues with [v], [None] raises [e] *)
Definition lookup {S A} (o : option A) (e : exn) : M S A :=
  match o with Some a => ret a | None => raise e end.

Notation "x <- m ;; k" := (bind m (fun x => k))
  (at level 61, m at next level, right associativity).
Notation "m ;;; k" := (bind m (fun _ => k))
  (at level 61, right associativity).

(** [for x in xs: body(x)] *)
Fixpoint for_each {S X} (xs : list X) (body : X -> M S unit) : M S unit :=
  match xs with
  | [] => ret tt
  | x :: r => body x ;;; for_each r body
  end.

(** [for x in xs: acc = body(acc, x)], for a loop that builds local values *)
Fixpoint fold_each {S X A} (xs : list X) (acc : A) (body : A -> X -> M S A)
  : M S A :=
  match xs with
  | [] => ret acc
  | x :: r => acc' <- body acc x ;; fold_each r acc' body
  end.

(** [for _ in range(n): body()], empty when [n <= 0] *)
Definition for_range {S} (n : Z) (body : M S unit) : M S unit :=
  for_each (repeat tt (Z.to_nat n)) (fun _ => body).

(** the state an outcome carries, whether it returned or raised *)
Definition final {S A} (o : outcome S A) : S :=
  match o with Ok _ s => s | Raise _ s => s end.

Definition raised {S A} (o : outcome S A) : bool :=
  match o with Ok _ _ => false | Raise _ _ => true end.

(** ** [agents/fix_time.py]: [FixedPhaseAgent] *)

Module fix_time.
Section Agent.
(** the type of a phase pair; the agent only counts them *)
Context {P : Type}.

Record FixedPhaseAgent : Type := mkAgent {
  phase_pairs : list P;
  current_phase : Z
}.

(** [FixedPhaseAgent.__init__] *)
Definition init (pairs : list P) : FixedPhaseAgent :=
  {| phase_pairs := pairs; current_phase := 0 |}.

(** [a % b] on integers: floored, [ZeroDivisionError] when [b] is 0 *)
Definition py_mod {S} (a b : Z) : M S Z :=
  if b =? 0 then raise ZeroDivisionError else ret (a mod b).

(** [FixedPhaseAgent.act]; its two optional arguments are not read *)
Definition act : M FixedPhaseAgent (list Z) :=
  self <- gets (fun s => s) ;;
  let actions :=
    repeat (current_phase self) (List.length (phase_pairs self)) in
  c <- py_mod (current_phase self + 1)
              (Z.of_nat (List.length (phase_pairs self))) ;;
  modify (fun s => {| phase_pairs := phase_pairs s; current_phase := c |}) ;;;
  ret actions.

(** the agent after [k] calls of [act] that returned, [None] once one raised *)
Fixpoint after_calls (k : nat) (a : FixedPhaseAgent) : option FixedPhaseAgent :=
  match k with
  | O => Some a
  | S k' =>
      match after_calls k' a with
      | Some a' =>
          match act a' with Ok _ a'' => Some a'' | Raise _ _ => None end
      | None => None
      end
  end.

End Agent.
Arguments FixedPhaseAgent P : clear implicits.
End fix_time.

(** ** The simulator session (external collaborator) *)

(** a phase of a traffic-light program, [state] one character per link *)
Record Phase : Type := mkPhase {
  duration : Z;
  state : string
}.

(** the commands a session receives *)
Inductive event : Type :=
| Tick                                (* [simulationStep()] *)
| SetPhase (ts : string) (idx : Z)    (* [trafficlight.setPhase(ts, idx)] *)
| Sense (ts : string).                (* the lane queries of one controller *)

(** Modelled from the spec: the SimulatorHandle of section 6, whose
    implementation (SUMO behind [traci]) is outside the repository. A
    session reports the signal ids and their phase programs, counts
    simulated time, and answers lane queries as a function of the commands
    it has received; one [simulationStep] is one tick and adds [sim_delta]
    to the simulated time. Failures of the simulator process are not
    modelled. *)
Record Sim : Type := mkSim {
  sim_ids : list string;                         (* [trafficlight.getIDList()] *)
  sim_programs : string -> list (list Phase);    (* [getAllProgramLogics(id)], each as its [getPhases()] *)
  sim_lanes : string -> list string;             (* the lanes a signal controls *)
  sim_sensor : list event -> Z -> string -> Z;   (* history, sensing distance, lane: vehicles queued *)
  sim_delta : Z;
  sim_time : Z;                                  (* [simulation.getTime()] *)
  sim_log : list event                           (* commands received, oldest first *)
}.

Definition send (e : event) (sm : Sim) : Sim :=
  mkSim (sim_ids sm) (sim_programs sm) (sim_lanes sm) (sim_sensor sm)
        (sim_delta sm) (sim_time sm) (sim_log sm ++ [e]).

(** [sumo.simulationStep()] *)
Definition simulationStep (sm : Sim) : Sim :=
  mkSim (sim_ids sm) (sim_programs sm) (sim_lanes sm) (sim_sensor sm)
        (sim_delta sm) (sim_time sm + sim_delta sm) (sim_log sm ++ [Tick]).

(** the number of ticks in a command history *)
Fixpoint ticks (l : list event) : Z :=
  match l with
  | [] => 0
  | Tick :: r => 1 + ticks r
  | _ :: r => ticks r
  end.

Definition is_tick (e : event) : bool :=
  match e with Tick => true | _ => false end.

(** ** The signal controller (external collaborator) *)

Module traffic_signal.

(** Modelled from the spec: the SignalController record of section 3,
    class [Signal] of [traffic_signal.py], which is not in the repository:
    the intersection identifier, the phase table, the latched target phase,
    the lanes and the current accumulated sensor observation (the queue of
    each lane, the [full_observation[lane]['queue']] that [calc_metrics]
    reads). The cross-reference to the sibling controllers is the
    [signals] dictionary itself, which every function over controllers
    receives whole. *)
Record Signal : Type := mkSignal {
  sig_id : string;
  phase_table : list Phase;
  next_phase : Z;
  lanes : list string;
  full_observation : string -> Z
}.

(** a method of a controller runs on the controller and the session it
    holds *)
Definition Method (A : Type) : Type := M (Signal * Sim) A.

(** Modelled from the spec: [Signal(map_name, sumo, ts, yellow_length,
    phases)], a controller with the given phase table, nothing latched and
    nothing observed. *)
Definition new (map_name : string) (sumo : Sim) (ts : string)
  (yellow_length : Z) (phases : list Phase) : Signal :=
  mkSignal ts phases 0 (sim_lanes sumo ts) (fun _ => 0).

(** Modelled from the spec: [Signal.prep_phase] of section 4.2, transition
    1: the index is validated against the bounds of the phase table, an
    invalid one being a caller error, and the controller latches the
    requested target phase without yet applying it. *)
Definition prep_phase (new_phase : Z) : Method unit :=
  fun '(self, sumo) =>
    if (0 <=? new_phase) && (new_phase <? Z.of_nat (List.length (phase_table self)))
    then Ok tt (mkSignal (sig_id self) (phase_table self) new_phase
                         (lanes self) (full_observation self), sumo)
    else Raise (ProtocolError (sig_id self) new_phase) (self, sumo).

(** Modelled from the spec: [Signal.set_phase] of section 4.2, transition
    3: the controller commits its latched phase, setting the new green
    phase on the simulator. *)
Definition set_phase : Method unit :=
  fun '(self, sumo) =>
    Ok tt (self, send (SetPhase (sig_id self) (next_phase self)) sumo).

(** Modelled from the spec: [Signal.observe] of section 4.2, transition 4:
    the controller accumulates a fresh observation window, the sensor
    aggregates per lane capped by the maximum sensing distance. *)
Definition observe (step_length max_distance : Z) : Method unit :=
  fun '(self, sumo) =>
    let sumo' := send (Sense (sig_id self)) sumo in
    Ok tt (mkSignal (sig_id self) (phase_table self) (next_phase self)
                    (lanes self)
                    (sim_sensor sumo' (sim_log sumo') max_distance),
           sumo').

End traffic_signal.

(** ** [multi_signal.py]: [MultiSignal] *)

Module multi_signal.
Import traffic_signal.
Section Env.
(** the scalars of observations and rewards (floating point in the source,
    never computed with here) *)
Context {R : Type}.

(** a [numpy] array *)
Record ndarray : Type := mkArray {
  shape : list Z;
  data : list R
}.

(** one element of [self.metrics] *)
Record StepMetric : Type := mkStepMetric {
  m_step : Z;                  (* ['step'] *)
  m_reward : dict R;           (* ['reward'] *)
  m_max_queues : dict Z;       (* ['max_queues'] *)
  m_queue_lengths : dict Z     (* ['queue_lengths'] *)
}.

(** what the process provides around the environment: the [sumolib] and
    [traci] entry points and [str] on the values of a metric *)
Record Runtime : Type := mkRuntime {
  checkBinary : string -> string;
  traci_start : list string -> Sim;
  str_time : Z -> string;
  str_rewards : dict R -> string;
  str_queues : dict Z -> string
}.

(** the attributes [__init__] copies or derives from its arguments *)
Record Config : Type := mkConfig {
  libsumo : bool;
  gymma : bool;
  log_dir : string;
  net : string;
  route : option string;
  gui : bool;
  state_fn : PyFun (dict Signal) (dict ndarray);
  reward_fn : PyFun (dict Signal) (dict R);
  max_distance : Z;
  warmup : Z;
  end_time : Z;
  step_length : Z;
  yellow_length : Z;
  step_ratio : Z;
  connection_name : string;
  map_name : string
}.

Definition with_route (v : option string) (c : Config) : Config :=
  mkConfig (libsumo c) (gymma c) (log_dir c) (net c) v (gui c) (state_fn c)
           (reward_fn c) (max_distance c) (warmup c) (end_time c)
           (step_length c) (yellow_length c) (step_ratio c)
           (connection_name c) (map_name c).

Definition with_connection_name (v : string) (c : Config) : Config :=
  mkConfig (libsumo c) (gymma c) (log_dir c) (net c) (route c) (gui c)
           (state_fn c) (reward_fn c) (max_distance c) (warmup c) (end_time c)
           (step_length c) (yellow_length c) (step_ratio c) v (map_name c).

(** [self], with the runtime and the log directory's files alongside *)
Record MultiSignal : Type := mkMultiSignal {
  cfg : Config;
  rt : Runtime;
  sumo : Sim;
  signal_ids : list string;
  phases : dict (list Phase);
  signals : dict Signal;
  all_ts_ids : list string;
  ts_starter : Z;
  obs_shape : dict (list Z);
  observation_space : list (list Z);   (* the shape of each [Box] *)
  action_space : list Z;               (* the size of each [Discrete] *)
  ts_order : list string;
  n_agents : Z;
  run : Z;
  metrics : list StepMetric;
  wait_metric : dict Z;
  sumo_cmd : option (list string);
  disk : dict (list string)            (* path to the rows written *)
}.

Definition with_cfg (v : Config) (s : MultiSignal) : MultiSignal :=
  mkMultiSignal v (rt s) (sumo s) (signal_ids s) (phases s) (signals s) (all_ts_ids s) (ts_starter s) (obs_shape s) (observation_space s) (action_space s) (ts_order s) (n_agents s) (run s) (metrics s) (wait_metric s) (sumo_cmd s) (disk s).

Definition with_sumo (v : Sim) (s : MultiSignal) : MultiSignal :=
  mkMultiSignal (cfg s) (rt s) v (signal_ids s) (phases s) (signals s) (all_ts_ids s) (ts_starter s) (obs_shape s) (observation_space s) (action_space s) (ts_order s) (n_agents s) (run s) (metrics s) (wait_metric s) (sumo_cmd s) (disk s).

Definition with_signal_ids (v : list string) (s : MultiSignal) : MultiSignal :=
  mkMultiSignal (cfg s) (rt s) (sumo s) v (phases s) (signals s) (all_ts_ids s) (ts_starter s) (obs_shape s) (observation_space s) (action_space s) (ts_order s) (n_agents s) (run s) (metrics s) (wait_metric s) (sumo_cmd s) (disk s).

Definition with_phases (v : dict (list Phase)) (s : MultiSignal) : MultiSignal :=
  mkMultiSignal (cfg s) (rt s) (sumo s) (signal_ids s) v (signals s) (all_ts_ids s) (ts_starter s) (obs_shape s) (observation_space s) (action_space s) (ts_order s) (n_agents s) (run s) (metrics s) (wait_metric s) (sumo_cmd s) (disk s).

Definition with_signals (v : dict Signal) (s : MultiSignal) : MultiSignal :=
  mkMultiSignal (cfg s) (rt s) (sumo s) (signal_ids s) (phases s) v (all_ts_ids s) (ts_starter s) (obs_shape s) (observation_space s) (action_space s) (ts_order s) (n_agents s) (run s) (metrics s) (wait_metric s) (sumo_cmd s) (disk s).

Definition with_all_ts_ids (v : list string) (s : MultiSignal) : MultiSignal :=
  mkMultiSignal (cfg s) (rt s) (sumo s) (signal_ids s) (phases s) (signals s) v (ts_starter s) (obs_shape s) (observation_space s) (action_space s) (ts_order s) (n_agents s) (run s) (metrics s) (wait_metric s) (sumo_cmd s) (disk s).

Definition with_ts_starter (v : Z) (s : MultiSignal) : MultiSignal :=
  mkMultiSignal (cfg s) (rt s) (sumo s) (signal_ids s) (phases s) (signals s) (all_ts_ids s) v (obs_shape s) (observation_space s) (action_space s) (ts_order s) (n_agents s) (run s) (metrics s) (wait_metric s) (sumo_cmd s) (disk s).

Definition with_obs_shape (v : dict (list Z)) (s : MultiSignal) : MultiSignal :=
  mkMultiSignal (cfg s) (rt s) (sumo s) (signal_ids s) (phases s) (signals s) (all_ts_ids s) (ts_starter s) v (observation_space s) (action_space s) (ts_order s) (n_agents s) (run s) (metrics s) (wait_metric s) (sumo_cmd s) (disk s).

Definition with_observation_space (v : list (list Z)) (s : MultiSignal) : MultiSignal :=
  mkMultiSignal (cfg s) (rt s) (sumo s) (signal_ids s) (phases s) (signals s) (all_ts_ids s) (ts_starter s) (obs_shape s) v (action_space s) (ts_order s) (n_agents s) (run s) (metrics s) (wait_metric s) (sumo_cmd s) (disk s).

Definition with_action_space (v : list Z) (s : MultiSignal) : MultiSignal :=
  mkMultiSignal (cfg s) (rt s) (sumo s) (signal_ids s) (phases s) (signals s) (all_ts_ids s) (ts_starter s) (obs_shape s) (observation_space s) v (ts_order s) (n_agents s) (run s) (metrics s) (wait_metric s) (sumo_cmd s) (disk s).

Definition with_ts_order (v : list string) (s : MultiSignal) : MultiSignal :=
  mkMultiSignal (cfg s) (rt s) (sumo s) (signal_ids s) (phases s) (signals s) (all_ts_ids s) (ts_starter s) (obs_shape s) (observation_space s) (action_space s) v (n_agents s) (run s) (metrics s) (wait_metric s) (sumo_cmd s) (disk s).

Definition with_n_agents (v : Z) (s : MultiSignal) : MultiSignal :=
  mkMultiSignal (cfg s) (rt s) (sumo s) (signal_ids s) (phases s) (signals s) (all_ts_ids s) (ts_starter s) (obs_shape s) (observation_space s) (action_space s) (ts_order s) v (run s) (metrics s) (wait_metric s) (sumo_cmd s) (disk s).

Definition with_run (v : Z) (s : MultiSignal) : MultiSignal :=
  mkMultiSignal (cfg s) (rt s) (sumo s) (signal_ids s) (phases s) (signals s) (all_ts_ids s) (ts_starter s) (obs_shape s) (observation_space s) (action_space s) (ts_order s) (n_agents s) v (metrics s) (wait_metric s) (sumo_cmd s) (disk s).

Definition with_metrics (v : list StepMetric) (s : MultiSignal) : MultiSignal :=
  mkMultiSignal (cfg s) (rt s) (sumo s) (signal_ids s) (phases s) (signals s) (all_ts_ids s) (ts_starter s) (obs_shape s) (observation_space s) (action_space s) (ts_order s) (n_agents s) (run s) v (wait_metric s) (sumo_cmd s) (disk s).

Definition with_wait_metric (v : dict Z) (s : MultiSignal) : MultiSignal :=
  mkMultiSignal (cfg s) (rt s) (sumo s) (signal_ids s) (phases s) (signals s) (all_ts_ids s) (ts_starter s) (obs_shape s) (observation_space s) (action_space s) (ts_order s) (n_agents s) (run s) (metrics s) v (sumo_cmd s) (disk s).

Definition with_sumo_cmd (v : option (list string)) (s : MultiSignal) : MultiSignal :=
  mkMultiSignal (cfg s) (rt s) (sumo s) (signal_ids s) (phases s) (signals s) (all_ts_ids s) (ts_starter s) (obs_shape s) (observation_space s) (action_space s) (ts_order s) (n_agents s) (run s) (metrics s) (wait_metric s) v (disk s).

Definition with_disk (v : dict (list string)) (s : MultiSignal) : MultiSignal :=
  mkMultiSignal (cfg s) (rt s) (sumo s) (signal_ids s) (phases s) (signals s) (all_ts_ids s) (ts_starter s) (obs_shape s) (observation_space s) (action_space s) (ts_order s) (n_agents s) (run s) (metrics s) (wait_metric s) (sumo_cmd s) v.

(** the argument of [step]: a mapping or, under [gymma], a sequence *)
Inductive action : Type :=
| ActDict (d : dict Z)
| ActSeq (l : list Z).

(** what [reset] returns *)
Inductive reset_result : Type :=
| ObsDict (d : dict ndarray)
| ObsSeq (l : list ndarray).

(** what [step] returns; [info] is the ['eps'] entry *)
Inductive step_result : Type :=
| RetDict (observations : dict ndarray) (rewards : dict R) (done : bool) (info : Z)
| RetSeq (obss : list ndarray) (rww : list R) (done : list bool) (info : Z).

(** [d[k]] on a dictionary *)
Definition item {S V} (d : dict V) (k : string) : M S V :=
  lookup (PyDict.get d k) (KeyError k).

(** [act[signal]] *)
Definition act_key {S} (act : action) (k : string) : M S Z :=
  match act with
  | ActDict d => item d k
  | ActSeq _ => raise TypeError
  end.

(** [act[i]] *)
Definition act_idx {S} (act : action) (i : nat) : M S Z :=
  match act with
  | ActSeq l => lookup (nth_error l i) IndexError
  | ActDict _ => raise (KeyErrorInt (Z.of_nat i))
  end.

(** [self.signals[k].m(...)]: the method runs on the controller stored
    under [k] and on the session, and what it mutated stays mutated *)
Definition on_signal {A} (k : string) (m : Method A) : M MultiSignal A :=
  fun s =>
    match PyDict.get (signals s) k with
    | None => Raise (KeyError k) s
    | Some sg =>
        match m (sg, sumo s) with
        | Ok a (sg', sm') =>
            Ok a (with_sumo sm' (with_signals (PyDict.set (signals s) k sg') s))
        | Raise e (sg', sm') =>
            Raise e (with_sumo sm' (with_signals (PyDict.set (signals s) k sg') s))
        end
    end.

(** [MultiSignal.step_sim] *)
Definition step_sim : M MultiSignal unit :=
  n <- gets (fun s => step_ratio (cfg s)) ;;
  for_range n (modify (fun s => with_sumo (simulationStep (sumo s)) s)).

(** the inner loop of [calc_metrics] over the lanes of one controller *)
Fixpoint lane_queues (signal : Signal) (ls : list string)
  (queue_length max_queue : Z) : Z * Z :=
  match ls with
  | [] => (queue_length, max_queue)
  | lane :: r =>
      let queue := full_observation signal lane in
      let max_queue := if max_queue <? queue then queue else max_queue in
      lane_queues signal r (queue_length + queue) max_queue
  end.

(** [MultiSignal.calc_metrics] *)
Definition calc_metrics (rewards : dict R) : M MultiSignal unit :=
  sigs <- gets signals ;;
  qs <- fold_each (PyDict.keys sigs) ([], [])
          (fun '(queue_lengths, max_queues) signal_id =>
             signal <- item sigs signal_id ;;
             let '(queue_length, max_queue) :=
               lane_queues signal (lanes signal) 0 0 in
             ret (PyDict.set queue_lengths signal_id queue_length,
                  PyDict.set max_queues signal_id max_queue)) ;;
  let '(queue_lengths, max_queues) := qs in
  t <- gets (fun s => sim_time (sumo s)) ;;
  modify (fun s =>
    with_metrics (metrics s ++ [mkStepMetric t rewards max_queues queue_lengths]) s).

(** one line of the log, as [save_metrics] assembles it *)
Definition csv_line (r : Runtime) (line : StepMetric) : string :=
  ((((("" ++ str_time r (m_step line) ++ ", ")
        ++ str_rewards r (m_reward line) ++ ", ")
        ++ str_queues r (m_max_queues line) ++ ", ")
        ++ str_queues r (m_queue_lengths line) ++ ", ")
        ++ String "010" "")%string.

Definition metrics_path (s : MultiSignal) : string :=
  os_path_join (log_dir (cfg s))
    (connection_name (cfg s) ++ "/" ++ "metrics_" ++ str_int (run s) ++ ".csv")%string.

(** [MultiSignal.save_metrics]: the file is opened with ['w+'], which
    empties it, and receives one [write] per element of [self.metrics] *)
Definition save_metrics : M MultiSignal unit :=
  modify (fun s =>
    with_disk (PyDict.set (disk s) (metrics_path s)
                          (map (csv_line (rt s)) (metrics s))) s).

(** [MultiSignal.close]; closing the session leaves [self] as it is *)
Definition close : M MultiSignal unit := save_metrics.

(** the loop of [__init__] and [reset] that builds the controllers of
    [ids]; [zero_wait] is the assignment to [wait_metric] that only [reset]
    makes *)
Definition build_signals (ids : list string) (zero_wait : bool)
  : M MultiSignal unit :=
  for_each ids (fun ts =>
    s <- gets (fun s => s) ;;
    p <- item (phases s) ts ;;
    modify (with_signals
              (PyDict.set (signals s) ts
                 (new (map_name (cfg s)) (sumo s) ts (yellow_length (cfg s)) p))) ;;;
    if zero_wait
    then modify (fun s => with_wait_metric (PyDict.set (wait_metric s) ts 0) s)
    else ret tt).

(** the loop of [__init__], [reset] and [step] that lets the controllers of
    [ids] observe *)
Definition observe_signals (ids : list string) : M MultiSignal unit :=
  for_each ids (fun ts =>
    c <- gets cfg ;;
    on_signal ts (observe (step_length c) (max_distance c))).

(** [[d[ts] for ts in order]], as the [gymma] branches build it *)
Definition in_order {S V} (order : list string) (d : dict V) : M S (list V) :=
  fold_each order [] (fun rets ts => v <- item d ts ;; ret (rets ++ [v])).

(** the command line of [reset] *)
Definition reset_cmd (s : MultiSignal) : list string :=
  let c := cfg s in
  (if gui c then [checkBinary (rt s) "sumo-gui"; "--start"]
   else [checkBinary (rt s) "sumo"])%string
  ++ (match route c with
      | Some r => ["-n"; net c; "-r"; r ++ "_" ++ str_int (run s) ++ ".rou.xml"]
      | None => ["-c"; net c]
      end)%string
  ++ ["--random"; "--time-to-teleport"; "-1"; "--tripinfo-output";
      os_path_join (os_path_join (log_dir c) (connection_name c))
                   ("tripinfo_" ++ str_int (run s) ++ ".xml");
      "--tripinfo-output.write-unfinished";
      "--no-step-log"; "True";
      "--no-warnings"; "True"]%string.

(** the part of [reset] under "Start a new simulation" *)
Definition new_simulation : M MultiSignal unit :=
  modify (fun s => with_sumo_cmd (Some (reset_cmd s)) s) ;;;
  modify (fun s => with_sumo (traci_start (rt s) (reset_cmd s)) s).

(** the part of [reset] under "'Start' only signals set for control, rest
    run fixed controllers" *)
Definition start_signals : M MultiSignal unit :=
  modify (fun s =>
    if (run s mod 30 =? 0) && (ts_starter s <? Z.of_nat (List.length (all_ts_ids s)))
    then with_ts_starter (ts_starter s + 1) s else s) ;;;
  modify (with_signal_ids []) ;;;
  n <- gets ts_starter ;;
  for_each (seq 0 (Z.to_nat n)) (fun i =>
    s <- gets (fun s => s) ;;
    ts <- lookup (nth_error (all_ts_ids s) i) IndexError ;;
    modify (with_signal_ids (signal_ids s ++ [ts]))).

(** the two [return]s of [reset] *)
Definition initial_observation : M MultiSignal reset_result :=
  s <- gets (fun s => s) ;;
  if gymma (cfg s) then
    let states := call (state_fn (cfg s)) (signals s) in
    rets <- in_order (ts_order s) states ;;
    ret (ObsSeq rets)
  else ret (ObsDict (call (state_fn (cfg s)) (signals s))).

(** [MultiSignal.reset]; closing the previous session leaves [self] as it
    is *)
Definition reset : M MultiSignal reset_result :=
  r <- gets run ;;
  (if negb (r =? 0) then save_metrics else ret tt) ;;;
  modify (with_metrics []) ;;;
  modify (fun s => with_run (run s + 1) s) ;;;
  new_simulation ;;;
  w <- gets (fun s => warmup (cfg s)) ;;
  for_range w step_sim ;;;
  start_signals ;;;
  ids <- gets signal_ids ;;
  build_signals ids true ;;;
  observe_signals ids ;;;
  initial_observation.

(** the [gymma] prologue of [step]: the sequence becomes a mapping along
    [ts_order] *)
Definition dict_of_seq {S} (order : list string) (act : action) : M S (dict Z) :=
  fold_each (combine (seq 0 (List.length order)) order) []
    (fun dict_act '(i, ts) =>
       a <- act_idx act i ;; ret (PyDict.set dict_act ts a)).

(** the first loop of [step]: every controller latches its action *)
Definition send_actions (act : action) : M MultiSignal unit :=
  sigs <- gets signals ;;
  for_each (PyDict.keys sigs) (fun signal =>
    sg <- (s <- gets signals ;; item s signal) ;;
    a <- act_key act signal ;;
    on_signal signal (prep_phase a)).

(** the second loop of [step]: the active controllers commit *)
Definition commit_phases : M MultiSignal unit :=
  ids <- gets signal_ids ;;
  for_each ids (fun signal => on_signal signal set_phase).

(** the [gymma] prologue of [step], [act = dict_act]: under [gymma] the
    sequence becomes a mapping along [ts_order] *)
Definition as_mapping (act : action) : M MultiSignal action :=
  c <- gets cfg ;;
  if gymma c then
    order <- gets ts_order ;;
    dict_act <- dict_of_seq order act ;;
    ret (ActDict dict_act)
  else ret act.

(** the two [return]s of [step]: under [gymma] the observations and the
    rewards are laid out along [ts_order] and [done] is wrapped in a list *)
Definition returned (observations : dict ndarray) (rewards : dict R)
  (done : bool) : M MultiSignal step_result :=
  s <- gets (fun s => s) ;;
  if gymma (cfg s) then
    rs <- fold_each (ts_order s) ([], [])
            (fun '(obss, rww) ts =>
               o <- item observations ts ;;
               r <- item rewards ts ;;
               ret (obss ++ [o], rww ++ [r])) ;;
    let '(obss, rww) := rs in
    ret (RetSeq obss rww [done] (run s))
  else ret (RetDict observations rewards done (run s)).

(** [MultiSignal.step] *)
Definition step (act : action) : M MultiSignal step_result :=
  c <- gets cfg ;;
  act <- as_mapping act ;;
  (* Send actions to their signals *)
  send_actions act ;;;
  for_range (yellow_length c) step_sim ;;;
  commit_phases ;;;
  for_range (step_length c - yellow_length c) step_sim ;;;
  ids <- gets signal_ids ;;
  observe_signals ids ;;;
  (* observe new state and reward *)
  sigs <- gets signals ;;
  let observations := call (state_fn c) sigs in
  let rewards := call (reward_fn c) sigs in
  calc_metrics rewards ;;;
  t <- gets (fun s => sim_time (sumo s)) ;;
  let done := end_time c <=? t in
  returned observations rewards done.

(** the arguments of [__init__] *)
Record Args : Type := mkArgs {
  a_run_name : string;
  a_map_name : string;
  a_net : string;
  a_state_fn : PyFun (dict Signal) (dict ndarray);
  a_reward_fn : PyFun (dict Signal) (dict R);
  a_route : option string;
  a_gui : bool;
  a_end_time : Z;
  a_step_length : Z;
  a_yellow_length : Z;
  a_step_ratio : Z;
  a_max_distance : Z;
  a_lights : list string;
  a_log_dir : string;
  a_libsumo : bool;
  a_warmup : Z;
  a_gymma : bool
}.

(** the filter of the comprehension that builds [self.phases] *)
Definition keep_phase (p : Phase) : bool :=
  negb (str_in "y" (state p)) && str_in "g" (lower (state p)).

(** the object [__init__] starts from: the attributes copied from the
    arguments are set, the others hold a value that is not read before
    [__init__] assigns them *)
Definition blank (r : Runtime) (a : Args) : MultiSignal :=
  mkMultiSignal
    (mkConfig (a_libsumo a) (a_gymma a) (a_log_dir a) (a_net a) (a_route a)
       (a_gui a) (a_state_fn a) (a_reward_fn a) (a_max_distance a)
       (a_warmup a) (a_end_time a) (a_step_length a) (a_yellow_length a)
       (a_step_ratio a)
       (a_run_name a ++ "-" ++ a_map_name a ++ "---" ++ fn_name (a_state_fn a)
          ++ "-" ++ fn_name (a_reward_fn a))%string
       (a_map_name a))
    r (traci_start r []) [] [] [] [] 0 [] [] [] [] 0 0 [] [] None [].

(** the command line of [__init__] *)
Definition init_cmd (s : MultiSignal) : list string :=
  match route (cfg s) with
  | Some r => [checkBinary (rt s) "sumo"; "-n"; net (cfg s); "-r";
               r ++ "_1.rou.xml"; "--no-warnings"; "True"]
  | None => [checkBinary (rt s) "sumo"; "-c"; net (cfg s); "--no-warnings"; "True"]
  end%string.

(** [MultiSignal.__init__]; the directory it creates holds no file yet *)
Definition init (r : Runtime) (a : Args) : outcome MultiSignal unit :=
  ((* Run some steps in the simulation with default light configurations
      to detect phases *)
   modify (fun s =>
     match route (cfg s) with
     | Some rt0 =>
         if str_in "grid4x4" rt0
         then with_cfg (with_route (Some (rt0 ++ "/grid4x4")%string) (cfg s)) s
         else if str_in "arterial4x4" rt0
         then with_cfg (with_route (Some (rt0 ++ "/arterial4x4")%string) (cfg s)) s
         else s
     | None => s
     end) ;;;
   modify (fun s => with_sumo (traci_start (rt s) (init_cmd s)) s) ;;;
   modify (fun s => with_signal_ids (sim_ids (sumo s)) s) ;;;
   (* this should work on all SUMO versions *)
   s <- gets (fun s => s) ;;
   ps <- fold_each (signal_ids s) []
           (fun acc lightID =>
              logic <- lookup (nth_error (sim_programs (sumo s) lightID) 0) IndexError ;;
              ret (PyDict.set acc lightID (filter keep_phase logic))) ;;
   modify (with_phases ps) ;;;
   modify (with_signals []) ;;;
   modify (fun s =>
     with_all_ts_ids (if (0 <? Z.of_nat (List.length (a_lights a)))
                      then a_lights a else sim_ids (sumo s)) s) ;;;
   modify (fun s => with_ts_starter (Z.of_nat (List.length (all_ts_ids s))) s) ;;;
   modify (with_signal_ids []) ;;;
   (* Pull signal observation shapes *)
   modify (with_obs_shape []) ;;;
   modify (with_observation_space []) ;;;
   modify (with_action_space []) ;;;
   all <- gets all_ts_ids ;;
   build_signals all false ;;;
   observe_signals all ;;;
   s <- gets (fun s => s) ;;
   let observations := call (state_fn (cfg s)) (signals s) in
   modify (with_ts_order []) ;;;
   for_each (PyDict.keys observations) (fun ts =>
     o <- item observations ts ;;
     let o_shape := shape o in
     modify (fun s => with_obs_shape (PyDict.set (obs_shape s) ts o_shape) s) ;;;
     modify (fun s => with_ts_order (ts_order s ++ [ts]) s) ;;;
     modify (fun s => with_observation_space (observation_space s ++ [o_shape]) s) ;;;
     if String.eqb ts "top_mgr" || String.eqb ts "bot_mgr" then ret tt  (* Not a traffic signal *)
     else
       s <- gets (fun s => s) ;;
       p <- item (phases s) ts ;;
       modify (with_action_space (action_space s ++ [Z.of_nat (List.length p)]))) ;;;
   modify (fun s => with_n_agents (ts_starter s) s) ;;;
   modify (with_run 0) ;;;
   modify (with_metrics []) ;;;
   modify (with_wait_metric []) ;;;
   modify (fun s =>
     with_cfg (with_connection_name
                 (a_run_name a ++ "-" ++ a_map_name a ++ "-"
                    ++ str_int (Z.of_nat (List.length (a_lights a))) ++ "-"
                    ++ fn_name (a_state_fn a) ++ "-" ++ fn_name (a_reward_fn a))%string
                 (cfg s)) s) ;;;
   modify (with_sumo_cmd None))
  (blank r a).

End Env.
Arguments ndarray R : clear implicits.
Arguments StepMetric R : clear implicits.
Arguments Runtime R : clear implicits.
Arguments Config R : clear implicits.
Arguments MultiSignal R : clear implicits.
Arguments reset_result R : clear implicits.
Arguments step_result R : clear implicits.
Arguments Args R : clear implicits.
End multi_signal.

(** ** Vocabulary of the properties *)

Import traffic_signal multi_signal.

(** a session receiving commands in turn *)
Definition receive (sm : Sim) (e : event) : Sim :=
  match e with
  | Tick => simulationStep sm
  | _ => send e sm
  end.

Definition receives (es : list event) (sm : Sim) : Sim := fold_left receive es sm.

(** the latched phase of the controller stored under [ts], if any *)
Definition latched (sigs : dict Signal) (ts : string) : option Z :=
  option_map next_phase (PyDict.get sigs ts).

(** the command by which the controller stored under [ts] commits *)
Definition commit_event (sigs : dict Signal) (ts : string) : event :=
  match PyDict.get sigs ts with
  | Some sg => SetPhase (sig_id sg) (next_phase sg)
  | None => SetPhase ts 0
  end.

(** a controller after it latched [a] *)
Definition latch (sg : Signal) (a : Z) : Signal :=
  mkSignal (sig_id sg) (phase_table sg) a (lanes sg) (full_observation sg).

(** the controllers of [sigs'] are those of [sigs], each with its
    identifier, phase table and lanes *)
Definition same_controllers (sigs sigs' : dict Signal) : Prop :=
  PyDict.keys sigs' = PyDict.keys sigs /\
  forall ts sg, PyDict.get sigs ts = Some sg ->
    exists sg', PyDict.get sigs' ts = Some sg' /\
      sig_id sg' = sig_id sg /\ phase_table sg' = phase_table sg /\
      lanes sg' = lanes sg.

(** the queue of each lane of a controller, in the order of [lanes] *)
Definition lane_queue_values (sg : Signal) : list Z :=
  map (full_observation sg) (lanes sg).

(** the character [c] occurs in [s] *)
Definition occurs (c : ascii) (s : string) : Prop := In c (list_ascii_of_string s).

(** a mapping laid out along an order, [None] when an identifier of the
    order has no entry: the lists the [gymma] branches build *)
Fixpoint along {V} (order : list string) (d : dict V) : option (list V) :=
  match order with
  | [] => Some []
  | ts :: r =>
      match PyDict.get d ts, along r d with
      | Some v, Some l => Some (v :: l)
      | _, _ => None
      end
  end.

(** the mapping that pairs the identifiers of an order with the values of
    a sequence, position by position, added to [acc] *)
Fixpoint mapping_from {V} (acc : dict V) (order : list string) (l : list V) : dict V :=
  match order, l with
  | ts :: r, v :: l' => mapping_from (PyDict.set acc ts v) r l'
  | _, _ => acc
  end.

Definition mapping_of {V} (order : list string) (l : list V) : dict V :=
  mapping_from [] order l.

Definition total (l : list Z) : Z := fold_right Z.add 0 l.
Definition maximum (l : list Z) : Z := fold_right Z.max 0 l.

Section Vocabulary.
Context {R : Type}.

(** the mapping [step] works with: its argument, or under [gymma] the
    mapping its prologue builds; [None] when there is none *)
Definition effective_action (s : MultiSignal R) (act : action) : option (dict Z) :=
  match as_mapping act s with
  | Ok (ActDict d) _ => Some d
  | _ => None
  end.

(** an index within the bounds of the phase table of a controller *)
Definition in_table (sg : Signal) (a : Z) : Prop :=
  0 <= a < Z.of_nat (List.length (phase_table sg)).

(** the mapping holds an index within bounds for every controller *)
Definition valid_action (s : MultiSignal R) (d : dict Z) : Prop :=
  forall ts sg, PyDict.get (signals s) ts = Some sg ->
    exists a, PyDict.get d ts = Some a /\ in_table sg a.

(** [valid_action], decided *)
Definition valid_actionb (s : MultiSignal R) (d : dict Z) : bool :=
  forallb (fun '(ts, sg) =>
             match PyDict.get d ts with
             | Some a => (0 <=? a) && (a <? Z.of_nat (List.length (phase_table sg)))
             | None => false
             end)
          (signals s).

(** the mapping has no entry for [ts], or one outside the phase table of
    the controller of [ts] *)
Definition bad_entry (s : MultiSignal R) (d : dict Z) (ts : string) : bool :=
  match PyDict.get d ts, PyDict.get (signals s) ts with
  | None, _ => true
  | Some a, Some sg =>
      negb ((0 <=? a) && (a <? Z.of_nat (List.length (phase_table sg))))
  | Some _, None => false
  end.

(** the entries of the mapping that name a controller are within the
    bounds of its phase table *)
Definition entries_in_table (s : MultiSignal R) (d : dict Z) : bool :=
  forallb (fun '(ts, a) =>
             match PyDict.get (signals s) ts with
             | Some sg => (0 <=? a) && (a <? Z.of_nat (List.length (phase_table sg)))
             | None => true
             end)
          d.

(** the mapping has no entry for [ts] *)
Definition missing (d : dict Z) (ts : string) : bool :=
  match PyDict.get d ts with None => true | Some _ => false end.

(** the [done] of a result of [step] *)
Definition done_flag (r : step_result R) : option bool :=
  match r with
  | RetDict _ _ d _ => Some d
  | RetSeq _ _ [d] _ => Some d
  | RetSeq _ _ _ _ => None
  end.

(** the section 7 category of caller errors: an action that does not fit
    the controllers, or a phase index out of range *)
Definition is_protocol_error (e : exn) : bool :=
  match e with
  | ZeroDivisionError => false
  | _ => true
  end.

(** what [__init__] establishes and [reset] and [step] keep *)
Record wf (s : MultiSignal R) : Prop := mkWf {
  wf_active : forall ts, In ts (signal_ids s) -> In ts (PyDict.keys (signals s));
  wf_ids : forall ts sg, PyDict.get (signals s) ts = Some sg -> sig_id sg = ts;
  wf_tables : forall ts, In ts (all_ts_ids s) -> In ts (PyDict.keys (phases s));
  wf_starter : 0 <= ts_starter s <= Z.of_nat (List.length (all_ts_ids s));
  wf_run : 0 <= run s
}.

(** [s'] is [s] but for the session, the controllers and the metrics *)
Definition frame (s s' : MultiSignal R) : Prop :=
  s' = with_metrics (metrics s') (with_sumo (sumo s') (with_signals (signals s') s)).

(** the commands one [step] sends: the yellow ticks, the commits of the
    active controllers, the green ticks, their lane queries *)
Definition step_events (s : MultiSignal R) (commit : string -> event) : list event :=
  let c := cfg s in
  repeat Tick (Z.to_nat (yellow_length c) * Z.to_nat (step_ratio c))
  ++ map commit (signal_ids s)
  ++ repeat Tick (Z.to_nat (step_length c - yellow_length c) * Z.to_nat (step_ratio c))
  ++ map Sense (signal_ids s).

(** the index a mapping holds for [ts], 0 standing for none *)
Definition index_for (d : dict Z) (ts : string) : Z :=
  match PyDict.get d ts with Some a => a | None => 0 end.

(** [wf], decided *)
Definition wfb (s : MultiSignal R) : bool :=
  forallb (fun ts => existsb (String.eqb ts) (PyDict.keys (signals s))) (signal_ids s)
  && forallb (fun '(ts, sg) => String.eqb (sig_id sg) ts) (signals s)
  && forallb (fun ts => existsb (String.eqb ts) (PyDict.keys (phases s))) (all_ts_ids s)
  && (0 <=? ts_starter s)
  && (ts_starter s <=? Z.of_nat (List.length (all_ts_ids s)))
  && (0 <=? run s).

(** a run of [step]s, returning the simulated time each of them ended at
    with what it returned *)
Fixpoint steps (acts : list action) : M (MultiSignal R) (list (Z * step_result R)) :=
  match acts with
  | [] => ret []
  | act :: rest =>
      r <- step act ;;
      t <- gets (fun s => sim_time (sumo s)) ;;
      rs <- steps rest ;;
      ret ((t, r) :: rs)
  end.

End Vocabulary.

(** ** A small network to evaluate the definitions on *)

Module demo.

Definition program : list Phase :=
  [mkPhase 30 "GGrr"; mkPhase 4 "yyrr"; mkPhase 30 "rrGG"; mkPhase 4 "rryy"].

(** two signals, [A] over two lanes and [B] over one; a tick is one
    second and the queues follow the number of commands received *)
Definition sim : Sim :=
  mkSim ["A"; "B"]%string
        (fun _ => [program])
        (fun ts => if String.eqb ts "A" then ["a1"; "a2"]%string else ["b1"]%string)
        (fun history _ lane =>
           Z.of_nat (List.length history) mod 5
           + (if String.eqb lane "a1" then 0 else 2))
        1 0 [].

Definition queues_fn : PyFun (dict Signal) (dict (ndarray Z)) :=
  mkPyFun "queues"
    (map (fun '(ts, sg) =>
            (ts, mkArray [Z.of_nat (List.length (lanes sg))] (lane_queue_values sg)))).

Definition pressure_fn : PyFun (dict Signal) (dict Z) :=
  mkPyFun "pressure"
    (map (fun '(ts, sg) => (ts, - total (lane_queue_values sg)))).

Definition str_dict (d : dict Z) : string :=
  fold_right (fun '(k, v) acc => (k ++ ": " ++ str_int v ++ "; " ++ acc)%string)
             ""%string d.

Definition runtime : Runtime Z :=
  mkRuntime (fun binary => binary) (fun _ => sim) str_int str_dict str_dict.

Definition args (gymma : bool) : Args Z :=
  mkArgs "run" "demo" "demo.sumocfg" queues_fn pressure_fn None false
         20 10 4 1 200 [] "/logs/" false 0 gymma.

(** the environment as [__init__] leaves it, then after its first [reset] *)
Definition built (gymma : bool) : MultiSignal Z := final (init runtime (args gymma)).
Definition episode1 (gymma : bool) : MultiSignal Z := final (reset (built gymma)).

(** the episode after one step, with the signal [A] on its second phase *)
Definition go : dict Z := [("A", 1); ("B", 0)]%string.
Definition after1 (gymma : bool) : MultiSignal Z :=
  final (step (if gymma then ActSeq [1; 0] else ActDict go) (episode1 gymma)).

(** a mapping with an index outside the two phases of [B], and one without
    an entry for [B] *)
Definition out_of_range : dict Z := [("A", 1); ("B", 5)]%string.
Definition incomplete : dict Z := [("A", 1)]%string.

(** the environment two resets before its 30th episode, with only [A]
    under control *)
Definition before_30th : MultiSignal Z :=
  with_run 28 (with_ts_starter 1 (built false)).

(** the first episode with only [A] under control, the controller of [B]
    built by [__init__] still being in [self.signals] *)
Definition only_A : MultiSignal Z :=
  with_signal_ids ["A"%string] (with_ts_starter 1 (episode1 false)).

End demo.

(** * Properties *)

(** ** Dictionaries *)

Module PyDictFacts.
Import PyDict.
Section Facts.
Context {V : Type}.
Implicit Types (d : dict V) (k : string) (v : V).

Lemma get_set_same d k v : get (set d k v) k = Some v.
Proof.
  induction d as [|[k' v'] r IH]; simpl.
  - now rewrite String.eqb_refl.
  - destruct (String.eqb k k') eqn:E; simpl; rewrite E; auto.
Qed.

Lemma get_set_other d k k' v : k' <> k -> get (set d k v) k' = get d k'.
Proof.
  intros Hne. induction d as [|[k0 v0] r IH]; simpl.
  - destruct (String.eqb k' k) eqn:E; auto.
    apply String.eqb_eq in E. contradiction.
  - destruct (String.eqb k k0) eqn:E; simpl.
    + apply String.eqb_eq in E. subst k0.
      destruct (String.eqb k' k) eqn:E'; auto.
      apply String.eqb_eq in E'. contradiction.
    + now rewrite IH.
Qed.

Lemma in_keys_get d k : In k (keys d) <-> exists v, get d k = Some v.
Proof.
  induction d as [|[k0 v0] r IH]; simpl.
  - split; [tauto | intros [v H]; discriminate].
  - destruct (String.eqb k k0) eqn:E.
    + apply String.eqb_eq in E. subst. split; eauto.
    + apply String.eqb_neq in E. rewrite IH. split.
      * intros [H | H]; [congruence | exact H].
      * intros H. now right.
Qed.

Lemma get_none_keys d k : get d k = None <-> ~ In k (keys d).
Proof.
  rewrite in_keys_get. split.
  - intros H [v Hv]. congruence.
  - intros H. destruct (get d k) eqn:E; auto. exfalso. eauto.
Qed.

Lemma keys_set_present d k v : In k (keys d) -> keys (set d k v) = keys d.
Proof.
  induction d as [|[k0 v0] r IH]; simpl; [tauto|].
  intros H. destruct (String.eqb k k0) eqn:E; simpl; auto.
  apply String.eqb_neq in E. f_equal. apply IH.
  destruct H; [congruence | assumption].
Qed.

Lemma keys_set_absent d k v :
  ~ In k (keys d) -> keys (set d k v) = keys d ++ [k].
Proof.
  induction d as [|[k0 v0] r IH]; simpl; auto.
  intros H. destruct (String.eqb k k0) eqn:E; simpl.
  - apply String.eqb_eq in E. subst. tauto.
  - f_equal. apply IH. tauto.
Qed.

Lemma in_keys_set d k v k' :
  In k' (keys (set d k v)) <-> k' = k \/ In k' (keys d).
Proof.
  rewrite !in_keys_get.
  destruct (string_dec k' k) as [->|Hne].
  - rewrite get_set_same. split; eauto.
  - rewrite get_set_other by assumption. split; [eauto | tauto].
Qed.

Lemma NoDup_keys_set d k v : NoDup (keys d) -> NoDup (keys (set d k v)).
Proof.
  intros Hnd. destruct (in_dec string_dec k (keys d)) as [Hin|Hout].
  - now rewrite keys_set_present.
  - rewrite keys_set_absent by assumption.
    apply NoDup_app; auto.
    + constructor; [simpl; tauto | constructor].
    + intros x Hx [<-|[]]. contradiction.
Qed.

End Facts.
End PyDictFacts.

(** split a conjunction into its parts, leaving defined predicates folded *)
Ltac splits := repeat match goal with |- _ /\ _ => split end.

(** ** Loops *)

Section Loops.
Context {S : Type}.

Lemma bind_ok {A B} (m : M S A) (f : A -> M S B) s b s' :
  bind m f s = Ok b s' <-> exists a s1, m s = Ok a s1 /\ f a s1 = Ok b s'.
Proof.
  unfold bind. destruct (m s) as [a s1|e s1]; split.
  - eauto.
  - now intros (a' & s1' & [= <- <-] & H).
  - discriminate.
  - now intros (a' & s1' & [=] & H).
Qed.

Lemma bind_returns {A B} (m : M S A) (f : A -> M S B) s a s1 :
  m s = Ok a s1 -> bind m f s = f a s1.
Proof. unfold bind. now intros ->. Qed.

Lemma bind_raises {A B} (m : M S A) (f : A -> M S B) s e s1 :
  m s = Raise e s1 -> bind m f s = Raise e s1.
Proof. unfold bind. now intros ->. Qed.

Lemma for_each_app {X} (xs ys : list X) (body : X -> M S unit) s :
  for_each (xs ++ ys) body s =
  (for_each xs body ;;; for_each ys body) s.
Proof.
  revert s. induction xs as [|x r IH]; intros s; simpl.
  - reflexivity.
  - unfold bind. destruct (body x s) as [[] s1|e s1]; auto.
Qed.

(** a loop whose body returns under an invariant returns, and the
    invariant holds of all the elements at the end *)
Lemma for_each_returns {X} (I : list X -> S -> Prop) (body : X -> M S unit)
  (xs : list X) (s : S) :
  I [] s ->
  (forall pre x s0, I pre s0 -> In x xs ->
     exists s1, body x s0 = Ok tt s1 /\ I (pre ++ [x]) s1) ->
  exists s', for_each xs body s = Ok tt s' /\ I xs s'.
Proof.
  intros H0 Hstep.
  assert (G : forall ys pre s0, I pre s0 -> (forall x, In x ys -> In x xs) ->
            exists s', for_each ys body s0 = Ok tt s' /\ I (pre ++ ys) s').
  { induction ys as [|y r IH]; intros pre s0 Hpre Hsub; simpl.
    - exists s0. rewrite app_nil_r. now split.
    - destruct (Hstep pre y s0 Hpre) as (s1 & E1 & H1); [apply Hsub; now left|].
      destruct (IH (pre ++ [y]) s1 H1) as (s' & E' & H').
      { intros x Hx. apply Hsub. now right. }
      exists s'. unfold bind. rewrite E1. split; auto.
      now rewrite <- app_assoc in H'. }
  apply (G xs [] s H0). auto.
Qed.

(** a loop raises when the body raises at one of the elements, and what
    the body preserves whether it returns or raises holds at the end *)
Lemma for_each_raises {X} (I : S -> Prop) (body : X -> M S unit)
  (xs : list X) (x : X) (s : S) :
  In x xs -> I s ->
  (forall y s0, I s0 -> I (final (body y s0))) ->
  (forall s0, I s0 -> raised (body x s0) = true) ->
  raised (for_each xs body s) = true /\ I (final (for_each xs body s)).
Proof.
  intros Hin H0 Hpres Hbad. revert s H0.
  induction xs as [|y r IH]; intros s H0; [destruct Hin|].
  simpl. unfold bind.
  specialize (Hpres y s H0).
  destruct (body y s) as [[] s1|e s1] eqn:E; simpl in *.
  - destruct Hin as [->|Hin].
    + specialize (Hbad s H0). rewrite E in Hbad. discriminate.
    + now apply IH.
  - auto.
Qed.

(** what holds before a loop and is preserved by its body holds after it *)
Lemma for_each_final {X} (I : S -> Prop) (body : X -> M S unit)
  (xs : list X) (s : S) :
  I s -> (forall y s0, I s0 -> I (final (body y s0))) ->
  I (final (for_each xs body s)).
Proof.
  intros H0 Hpres. revert s H0.
  induction xs as [|y r IH]; intros s H0; simpl; auto.
  unfold bind. specialize (Hpres y s H0).
  destruct (body y s) as [[] s1|e s1]; simpl in *; auto.
Qed.

Lemma fold_each_final {X A} (I : S -> Prop) (body : A -> X -> M S A)
  (xs : list X) (acc : A) (s : S) :
  I s -> (forall a y s0, I s0 -> I (final (body a y s0))) ->
  I (final (fold_each xs acc body s)).
Proof.
  intros H0 Hpres. revert acc s H0.
  induction xs as [|y r IH]; intros acc s H0; simpl; auto.
  unfold bind. specialize (Hpres acc y s H0).
  destruct (body acc y s) as [a s1|e s1]; simpl in *; auto.
Qed.

(** a loop raises only what its body raises *)
Lemma for_each_exn {X} (E : exn -> Prop) (body : X -> M S unit) xs s e s1 :
  (forall y s0 e0 s2, body y s0 = Raise e0 s2 -> E e0) ->
  for_each xs body s = Raise e s1 -> E e.
Proof.
  intros Hb. revert s. induction xs as [|y r IH]; intros s; simpl.
  - discriminate.
  - unfold bind. destruct (body y s) as [[] s2|e0 s2] eqn:Ey.
    + apply IH.
    + intros [= <- <-]. eauto.
Qed.

Lemma fold_each_exn {X A} (E : exn -> Prop) (body : A -> X -> M S A) xs acc s e s1 :
  (forall a y s0 e0 s2, body a y s0 = Raise e0 s2 -> E e0) ->
  fold_each xs acc body s = Raise e s1 -> E e.
Proof.
  intros Hb. revert acc s. induction xs as [|y r IH]; intros acc s; simpl.
  - discriminate.
  - unfold bind. destruct (body acc y s) as [a s2|e0 s2] eqn:Ey.
    + apply IH.
    + intros [= <- <-]. eauto.
Qed.

(** what a loop that returned has established *)
Lemma for_each_inv {X} (I : list X -> S -> Prop) (body : X -> M S unit)
  (xs : list X) (s s' : S) :
  I [] s ->
  (forall pre x s0 s1, I pre s0 -> In x xs -> body x s0 = Ok tt s1 ->
     I (pre ++ [x]) s1) ->
  for_each xs body s = Ok tt s' -> I xs s'.
Proof.
  intros H0 Hstep.
  assert (G : forall ys pre s0, I pre s0 -> (forall x, In x ys -> In x xs) ->
            for_each ys body s0 = Ok tt s' -> I (pre ++ ys) s').
  { induction ys as [|y r IH]; intros pre s0 Hpre Hsub; simpl.
    - intros [= <-]. now rewrite app_nil_r.
    - unfold bind. destruct (body y s0) as [[] s1|e s1] eqn:E; [|discriminate].
      intros H. replace (pre ++ y :: r) with ((pre ++ [y]) ++ r)
        by now rewrite <- app_assoc.
      apply (IH _ s1); auto.
      + eapply Hstep; eauto. apply Hsub. now left.
      + intros x Hx. apply Hsub. now right. }
  apply (G xs [] s H0). auto.
Qed.

End Loops.

(** ** The fixed-phase agent *)

Section FixedPhase.
Import fix_time.
Context {P : Type}.
Implicit Types (a : FixedPhaseAgent P) (pairs : list P).

Lemma act_returns a :
  phase_pairs a <> [] ->
  act a = Ok (repeat (current_phase a) (List.length (phase_pairs a)))
             (mkAgent (phase_pairs a)
                ((current_phase a + 1) mod Z.of_nat (List.length (phase_pairs a)))).
Proof.
  intros Hne. unfold act, bind, gets, py_mod, modify, ret. simpl.
  destruct (Z.eqb_spec (Z.of_nat (List.length (phase_pairs a))) 0) as [E|E];
    [|reflexivity].
  destruct (phase_pairs a); [congruence | simpl in E; lia].
Qed.

Lemma after_calls_init pairs (k : nat) :
  pairs <> [] ->
  after_calls k (init pairs) =
  Some (mkAgent pairs (Z.of_nat k mod Z.of_nat (List.length pairs))).
Proof.
  intros Hne.
  assert (Hn : 0 < Z.of_nat (List.length pairs))
    by (destruct pairs; [congruence | simpl; lia]).
  induction k as [|k IH].
  - simpl. unfold init. now rewrite Z.mod_0_l by lia.
  - cbn [after_calls]. rewrite IH, act_returns by assumption. cbn.
    rewrite Z.add_mod_idemp_l by lia. do 3 f_equal. lia.
Qed.

(** C10: an agent built on a non-empty [phase_pairs] answers its [k]-th
    call of [act] ([k >= 1]) with [len(phase_pairs)] copies of
    [(k - 1) mod len(phase_pairs)], its counter staying in
    [[0, len(phase_pairs))] before and after every call; on an empty
    [phase_pairs], [act] raises [ZeroDivisionError]. *)
Theorem fixed_phase_round_robin pairs (k : nat) :
  (pairs <> [] -> (1 <= k)%nat ->
   let n := Z.of_nat (List.length pairs) in
   exists a a',
     after_calls (k - 1) (init pairs) = Some a /\
     act a = Ok (repeat ((Z.of_nat k - 1) mod n) (List.length pairs)) a' /\
     after_calls k (init pairs) = Some a' /\
     0 <= current_phase a < n /\ 0 <= current_phase a' < n) /\
  (pairs = [] -> act (init pairs) = Raise ZeroDivisionError (init pairs)).
Proof.
  split.
  - intros Hne Hk n.
    assert (Hn : 0 < n) by (subst n; destruct pairs; [congruence | simpl; lia]).
    exists (mkAgent pairs (Z.of_nat (k - 1) mod n)),
           (mkAgent pairs (Z.of_nat k mod n)).
    rewrite !after_calls_init by assumption. fold n.
    rewrite act_returns by assumption. cbn [phase_pairs current_phase]. fold n.
    replace (Z.of_nat (k - 1)) with (Z.of_nat k - 1) by lia.
    repeat split; try (apply Z.mod_pos_bound; lia).
    rewrite Z.add_mod_idemp_l by lia. do 3 f_equal. lia.
  - intros ->. reflexivity.
Qed.

End FixedPhase.

Lemma fixed_phase_round_robin_witness :
  exists a a',
    fix_time.after_calls 2 (fix_time.init [(0, 1); (2, 3)]) = Some a /\
    fix_time.act a = Ok [0; 0] a' /\ fix_time.current_phase a' = 1.
Proof.
  destruct (fixed_phase_round_robin [(0, 1); (2, 3)] 3) as [H _].
  destruct H as (a & a' & H1 & H2 & H3 & _ & _); [discriminate | lia |].
  exists a, a'. split; [exact H1|]. split; [exact H2|].
  cbn in H3. injection H3 as <-. reflexivity.
Defined.

(** ** The session *)

Lemma receive_log sm e : sim_log (receive sm e) = sim_log sm ++ [e].
Proof. destruct e; reflexivity. Qed.

Lemma receives_app es es' sm :
  receives (es ++ es') sm = receives es' (receives es sm).
Proof. apply fold_left_app. Qed.

Lemma receives_log es sm : sim_log (receives es sm) = sim_log sm ++ es.
Proof.
  revert sm. induction es as [|e r IH]; intros sm; simpl.
  - now rewrite app_nil_r.
  - unfold receives in IH. rewrite IH, receive_log, <- app_assoc. reflexivity.
Qed.

Lemma receives_delta es sm : sim_delta (receives es sm) = sim_delta sm.
Proof.
  revert sm. induction es as [|e r IH]; intros sm; simpl; auto.
  unfold receives in IH. rewrite IH. destruct e; reflexivity.
Qed.

Lemma receives_time es sm :
  sim_time (receives es sm) = sim_time sm + ticks es * sim_delta sm.
Proof.
  revert sm. induction es as [|e r IH]; intros sm.
  - simpl. lia.
  - change (receives (e :: r) sm) with (receives r (receive sm e)).
    rewrite IH. destruct e; cbn [receive simulationStep send sim_time sim_delta ticks]; lia.
Qed.

Lemma receives_static es sm :
  sim_ids (receives es sm) = sim_ids sm /\
  sim_programs (receives es sm) = sim_programs sm /\
  sim_lanes (receives es sm) = sim_lanes sm /\
  sim_sensor (receives es sm) = sim_sensor sm.
Proof.
  revert sm. induction es as [|e r IH]; intros sm; [now repeat split|].
  change (receives (e :: r) sm) with (receives r (receive sm e)).
  destruct (IH (receive sm e)) as (-> & -> & -> & ->).
  destruct e; repeat split.
Qed.

Lemma ticks_app es es' : ticks (es ++ es') = ticks es + ticks es'.
Proof.
  induction es as [|e r IH]; [reflexivity|].
  destruct e; cbn [app ticks]; rewrite IH; lia.
Qed.

Lemma ticks_repeat n : ticks (repeat Tick n) = Z.of_nat n.
Proof. induction n as [|n IH]; [reflexivity|]. cbn [repeat ticks]. lia. Qed.

Lemma ticks_map_commit {X} (f : X -> string) (g : X -> Z) xs :
  ticks (map (fun x => SetPhase (f x) (g x)) xs) = 0.
Proof. induction xs; simpl; auto. Qed.

Lemma ticks_map_sense xs : ticks (map Sense xs) = 0.
Proof. induction xs; simpl; auto. Qed.

(** ** The orchestrator *)

(** reduce the projections of an updated [self], and nothing else *)
Ltac fields :=
  cbn [cfg rt sumo signal_ids phases signals all_ts_ids ts_starter obs_shape
       observation_space action_space ts_order n_agents run metrics
       wait_metric sumo_cmd disk with_cfg with_sumo with_signal_ids
       with_phases with_signals with_all_ts_ids with_ts_starter
       with_obs_shape with_observation_space with_action_space with_ts_order
       with_n_agents with_run with_metrics with_wait_metric with_sumo_cmd
       with_disk libsumo gymma log_dir net route gui state_fn reward_fn
       max_distance warmup end_time step_length yellow_length step_ratio
       connection_name map_name with_route with_connection_name] in *.

Section Orchestrator.
Context {R : Type}.
Implicit Types (s : MultiSignal R) (d : dict Z) (act : action).

Lemma frame_refl s : frame s s.
Proof. destruct s. reflexivity. Qed.

Lemma frame_trans s1 s2 s3 : frame s1 s2 -> frame s2 s3 -> frame s1 s3.
Proof. unfold frame. intros H12 H23. rewrite H23 at 1. rewrite H12 at 1. reflexivity. Qed.

Lemma frame_with_sumo s s' sm : frame s s' -> frame s (with_sumo sm s').
Proof. unfold frame. intros H. rewrite H at 1. reflexivity. Qed.

Lemma frame_with_signals s s' sigs : frame s s' -> frame s (with_signals sigs s').
Proof. unfold frame. intros H. rewrite H at 1. reflexivity. Qed.

Lemma frame_with_metrics s s' ms : frame s s' -> frame s (with_metrics ms s').
Proof. unfold frame. intros H. rewrite H at 1. reflexivity. Qed.

(** what a frame leaves as it is *)
Lemma frame_fields s s' :
  frame s s' ->
  cfg s' = cfg s /\ rt s' = rt s /\ signal_ids s' = signal_ids s /\
  phases s' = phases s /\ all_ts_ids s' = all_ts_ids s /\
  ts_starter s' = ts_starter s /\ ts_order s' = ts_order s /\
  run s' = run s /\ disk s' = disk s /\ wait_metric s' = wait_metric s.
Proof. unfold frame. intros ->. repeat split. Qed.

Lemma ticks_loop n s :
  for_each (repeat tt n)
    (fun _ : unit => modify (fun s => with_sumo (simulationStep (sumo s)) s)) s
  = Ok tt (with_sumo (receives (repeat Tick n) (sumo s)) s).
Proof.
  revert s. induction n as [|n IH]; intros s.
  - destruct s. reflexivity.
  - cbn [repeat for_each]. unfold bind, modify at 1. rewrite IH. reflexivity.
Qed.

Lemma step_sim_returns s :
  step_sim s =
  Ok tt (with_sumo (receives (repeat Tick (Z.to_nat (step_ratio (cfg s)))) (sumo s)) s).
Proof. unfold step_sim, bind, gets, for_range. apply ticks_loop. Qed.

(** [k] calls of [step_sim] are [k * step_ratio] ticks *)
Lemma for_range_step_sim k s :
  for_range k step_sim s =
  Ok tt (with_sumo
           (receives (repeat Tick (Z.to_nat k * Z.to_nat (step_ratio (cfg s)))) (sumo s))
           s).
Proof.
  unfold for_range. generalize (Z.to_nat k) as n. intros n. revert s.
  induction n as [|n IH]; intros s.
  - destruct s. reflexivity.
  - cbn [repeat for_each]. unfold bind. rewrite step_sim_returns, IH.
    cbn [cfg with_sumo sumo]. f_equal.
    change (S n * Z.to_nat (step_ratio (cfg s)))%nat
      with (Z.to_nat (step_ratio (cfg s)) + n * Z.to_nat (step_ratio (cfg s)))%nat.
    rewrite repeat_app, receives_app. reflexivity.
Qed.

(** *** Controllers *)

Lemma set_get_id {V} (dv : dict V) k v :
  PyDict.get dv k = Some v -> PyDict.set dv k v = dv.
Proof.
  induction dv as [|[k0 v0] r IH]; simpl; [discriminate|].
  destruct (String.eqb k k0) eqn:E.
  - now intros [= ->].
  - intros H. now rewrite IH.
Qed.

Lemma same_controllers_refl sigs : same_controllers sigs sigs.
Proof. split; [reflexivity|]. intros ts sg H. exists sg. auto. Qed.

Lemma same_controllers_trans sigs1 sigs2 sigs3 :
  same_controllers sigs1 sigs2 -> same_controllers sigs2 sigs3 ->
  same_controllers sigs1 sigs3.
Proof.
  intros [K12 H12] [K23 H23]. split; [congruence|].
  intros ts sg H. destruct (H12 ts sg H) as (sg2 & G2 & I2 & T2 & L2).
  destruct (H23 ts sg2 G2) as (sg3 & G3 & I3 & T3 & L3).
  exists sg3. repeat split; congruence.
Qed.

Lemma same_controllers_set sigs k sg sg' :
  PyDict.get sigs k = Some sg ->
  sig_id sg' = sig_id sg -> phase_table sg' = phase_table sg ->
  lanes sg' = lanes sg ->
  same_controllers sigs (PyDict.set sigs k sg').
Proof.
  intros Hk Hi Ht Hl. split.
  - apply PyDictFacts.keys_set_present, PyDictFacts.in_keys_get. eauto.
  - intros ts sg0 H. destruct (string_dec ts k) as [->|Hne].
    + rewrite PyDictFacts.get_set_same. exists sg'.
      assert (sg0 = sg) by congruence. subst. auto.
    + rewrite PyDictFacts.get_set_other by assumption. exists sg0. auto.
Qed.

Lemma same_controllers_in sigs sigs' ts :
  same_controllers sigs sigs' ->
  In ts (PyDict.keys sigs) -> In ts (PyDict.keys sigs').
Proof. intros [K _]. now rewrite K. Qed.

Lemma in_table_dec sg a : {in_table sg a} + {~ in_table sg a}.
Proof.
  unfold in_table.
  destruct (Z_le_dec 0 a); destruct (Z_lt_dec a (Z.of_nat (List.length (phase_table sg))));
    [left | right | right | right]; lia.
Qed.

Lemma prep_phase_valid sg a sm :
  in_table sg a -> prep_phase a (sg, sm) = Ok tt (latch sg a, sm).
Proof.
  unfold in_table, prep_phase. intros [H0 H1].
  destruct (Z.leb_spec 0 a); [|lia].
  destruct (Z.ltb_spec a (Z.of_nat (List.length (phase_table sg)))); [|lia].
  reflexivity.
Qed.

Lemma prep_phase_invalid sg a sm :
  ~ in_table sg a ->
  prep_phase a (sg, sm) = Raise (ProtocolError (sig_id sg) a) (sg, sm).
Proof.
  unfold in_table, prep_phase. intros H.
  destruct (Z.leb_spec 0 a);
    destruct (Z.ltb_spec a (Z.of_nat (List.length (phase_table sg))));
    try reflexivity. lia.
Qed.

Lemma with_signals_same s : with_signals (signals s) s = s.
Proof. destruct s. reflexivity. Qed.

Lemma with_sumo_same s : with_sumo (sumo s) s = s.
Proof. destruct s. reflexivity. Qed.

(** *** The first loop of [step] *)

(** one pass of the loop body on a controller that is there *)
Lemma send_one_valid s d ts sg a :
  PyDict.get (signals s) ts = Some sg -> PyDict.get d ts = Some a ->
  in_table sg a ->
  (sg0 <- (s0 <- gets signals ;; item s0 ts) ;;
   a0 <- act_key (ActDict d) ts ;;
   on_signal ts (prep_phase a0)) s
  = Ok tt (with_signals (PyDict.set (signals s) ts (latch sg a)) s).
Proof.
  intros Hs Hd Ha. unfold bind, gets, item, act_key, item, lookup, on_signal, ret.
  rewrite Hs. cbv beta iota. rewrite Hd. cbv beta iota.
  rewrite Hs, prep_phase_valid by assumption.
  destruct s. reflexivity.
Qed.

(** whatever the action, the loop body leaves the session, the metrics and
    the identity of the controllers as they are *)
Lemma send_one_final s0 s act ts :
  frame s0 s /\ sumo s = sumo s0 /\ metrics s = metrics s0 /\
    same_controllers (signals s0) (signals s) ->
  let s' := final ((sg0 <- (s1 <- gets signals ;; item s1 ts) ;;
                    a0 <- act_key act ts ;;
                    on_signal ts (prep_phase a0)) s) in
  frame s0 s' /\ sumo s' = sumo s0 /\ metrics s' = metrics s0 /\
    same_controllers (signals s0) (signals s').
Proof.
  intros (Hf & Hsm & Hm & Hc).
  unfold bind, gets, item, lookup.
  destruct (PyDict.get (signals s) ts) as [sg|] eqn:Hs; cbn; [|tauto].
  assert (G : forall a,
    let s' := final (on_signal ts (prep_phase a) s) in
    frame s0 s' /\ sumo s' = sumo s0 /\ metrics s' = metrics s0 /\
      same_controllers (signals s0) (signals s')).
  { intros a. unfold on_signal. rewrite Hs.
    destruct (in_table_dec sg a) as [Ha|Ha].
    - rewrite prep_phase_valid by assumption. cbn.
      repeat split; auto using frame_with_sumo, frame_with_signals.
      + eapply same_controllers_trans; [exact Hc|].
        now apply (same_controllers_set _ _ sg).
      + eapply same_controllers_trans; [exact Hc|].
        now apply (same_controllers_set _ _ sg).
    - rewrite prep_phase_invalid by assumption. cbn.
      rewrite set_get_id by assumption.
      repeat split; auto using frame_with_sumo, frame_with_signals;
        destruct Hc; auto. }
  destruct act as [d|l]; cbn.
  - unfold item, lookup. destruct (PyDict.get d ts) as [a|]; cbn; [apply G | tauto].
  - tauto.
Qed.

(** with an index within bounds for every controller, the loop returns
    and every controller has latched its index *)
Lemma send_actions_returns s d :
  valid_action s d ->
  exists s1, send_actions (ActDict d) s = Ok tt s1 /\
    frame s s1 /\ sumo s1 = sumo s /\ metrics s1 = metrics s /\
    PyDict.keys (signals s1) = PyDict.keys (signals s) /\
    forall ts sg, PyDict.get (signals s) ts = Some sg ->
      exists a, PyDict.get d ts = Some a /\ in_table sg a /\
                PyDict.get (signals s1) ts = Some (latch sg a).
Proof.
  intros Hv. unfold send_actions, bind at 1, gets at 1.
  destruct (for_each_returns
    (fun pre s0 =>
       frame s s0 /\ sumo s0 = sumo s /\ metrics s0 = metrics s /\
       PyDict.keys (signals s0) = PyDict.keys (signals s) /\
       forall ts sg, PyDict.get (signals s) ts = Some sg ->
         exists a, PyDict.get d ts = Some a /\ in_table sg a /\
           (In ts pre -> PyDict.get (signals s0) ts = Some (latch sg a)) /\
           (~ In ts pre -> PyDict.get (signals s0) ts = Some sg))
    (fun signal =>
       sg <- (s0 <- gets signals ;; item s0 signal) ;;
       a <- act_key (ActDict d) signal ;;
       on_signal signal (prep_phase a))
    (PyDict.keys (signals s)) s) as (s1 & E & I1).
  - splits; auto using frame_refl.
    intros ts sg H. destruct (Hv ts sg H) as (a & Ha & Hin).
    exists a. splits; auto. intros [].
  - intros pre x s0 (Hf & Hsm & Hm & Hk & Hall) Hx.
    apply PyDictFacts.in_keys_get in Hx. destruct Hx as [sgx Hsgx].
    destruct (Hall x sgx Hsgx) as (a & Ha & Hin & Hdone & Htodo).
    assert (exists sg0, PyDict.get (signals s0) x = Some sg0 /\
                        in_table sg0 a /\ latch sg0 a = latch sgx a)
      as (sg0 & Hsg0 & Hin0 & Hl0).
    { destruct (in_dec string_dec x pre) as [Hp|Hp].
      - exists (latch sgx a). rewrite (Hdone Hp). auto.
      - exists sgx. rewrite (Htodo Hp). auto. }
    eexists. split; [apply (send_one_valid s0 d x sg0 a); assumption|].
    rewrite Hl0. splits; auto using frame_with_signals.
    + fields. rewrite PyDictFacts.keys_set_present; auto.
      rewrite Hk. apply PyDictFacts.in_keys_get. eauto.
    + intros ts sg H. destruct (Hall ts sg H) as (a' & Ha' & Hin' & Hdone' & Htodo').
      exists a'. splits; auto; fields.
      * intros Hp. destruct (string_dec ts x) as [->|Hne].
        -- rewrite PyDictFacts.get_set_same. congruence.
        -- rewrite PyDictFacts.get_set_other by assumption.
           apply Hdone'. apply in_app_or in Hp. destruct Hp as [Hp|[Hp|[]]]; congruence.
      * intros Hp. destruct (string_dec ts x) as [->|Hne].
        -- exfalso. apply Hp, in_or_app. right. now left.
        -- rewrite PyDictFacts.get_set_other by assumption.
           apply Htodo'. intros Hq. apply Hp, in_or_app. now left.
  - exists s1. split; [exact E|].
    destruct I1 as (Hf & Hsm & Hm & Hk & Hall). splits; auto.
    intros ts sg H. destruct (Hall ts sg H) as (a & Ha & Hin & Hdone & _).
    exists a. splits; auto. apply Hdone, PyDictFacts.in_keys_get. eauto.
Qed.

(** whatever the action, the loop leaves the session and the metrics as
    they are: nothing is ticked and nothing committed *)
Lemma send_actions_final s act :
  let s1 := final (send_actions act s) in
  frame s s1 /\ sumo s1 = sumo s /\ metrics s1 = metrics s /\
  same_controllers (signals s) (signals s1).
Proof.
  unfold send_actions, bind at 1, gets at 1.
  apply (for_each_final
    (fun s0 => frame s s0 /\ sumo s0 = sumo s /\ metrics s0 = metrics s /\
               same_controllers (signals s) (signals s0))).
  - splits; auto using frame_refl, same_controllers_refl.
  - intros y s0 H. now apply send_one_final.
Qed.

(** a controller whose entry is missing or out of bounds makes the loop
    raise *)
Lemma send_actions_raises s d ts :
  In ts (PyDict.keys (signals s)) ->
  (forall sg, PyDict.get (signals s) ts = Some sg ->
     match PyDict.get d ts with
     | Some a => ~ in_table sg a
     | None => True
     end) ->
  raised (send_actions (ActDict d) s) = true.
Proof.
  intros Hin Hbad. unfold send_actions, bind at 1, gets at 1.
  apply (for_each_raises
    (fun s0 => frame s s0 /\ sumo s0 = sumo s /\ metrics s0 = metrics s /\
               same_controllers (signals s) (signals s0)) _ _ ts); auto.
  - splits; auto using frame_refl, same_controllers_refl.
  - intros y s0 H. now apply send_one_final.
  - intros s0 (_ & _ & _ & Hc).
    apply PyDictFacts.in_keys_get in Hin. destruct Hin as [sg Hsg].
    destruct Hc as [_ Hc]. destruct (Hc ts sg Hsg) as (sg0 & Hsg0 & _ & Ht & _).
    specialize (Hbad sg Hsg).
    unfold bind, gets, item, act_key, item, lookup, ret, raise.
    rewrite Hsg0. cbv beta iota.
    destruct (PyDict.get d ts) as [a|]; cbv beta iota; [|reflexivity].
    unfold on_signal. rewrite Hsg0, prep_phase_invalid; [reflexivity|].
    unfold in_table in *. now rewrite Ht.
Qed.

(** when the entries that are there are within bounds, the loop raises
    the [KeyError] of the first controller without an entry *)
Lemma send_actions_key_error s d ts0 :
  (forall ts a sg, PyDict.get d ts = Some a ->
     PyDict.get (signals s) ts = Some sg -> in_table sg a) ->
  find (fun k => match PyDict.get d k with None => true | Some _ => false end)
       (PyDict.keys (signals s)) = Some ts0 ->
  exists s1, send_actions (ActDict d) s = Raise (KeyError ts0) s1.
Proof.
  intros Hv Hfind. unfold send_actions, bind at 1, gets at 1.
  assert (G : forall ks s0,
    (forall k, In k ks -> In k (PyDict.keys (signals s))) ->
    same_controllers (signals s) (signals s0) ->
    find (fun k => match PyDict.get d k with None => true | Some _ => false end) ks
      = Some ts0 ->
    exists s1,
      for_each ks (fun signal =>
        sg <- (s0 <- gets signals ;; item s0 signal) ;;
        a <- act_key (ActDict d) signal ;;
        on_signal signal (prep_phase a)) s0 = Raise (KeyError ts0) s1).
  { induction ks as [|k r IH]; intros s0 Hsub Hc Hf; [discriminate|].
    assert (Hk : In k (PyDict.keys (signals s))) by (apply Hsub; now left).
    apply PyDictFacts.in_keys_get in Hk. destruct Hk as [sg Hsg].
    destruct (proj2 Hc k sg Hsg) as (sg0 & Hsg0 & Hi & Ht & Hl).
    cbn [find] in Hf. cbn [for_each]. unfold bind at 1.
    destruct (PyDict.get d k) as [a|] eqn:Hd.
    - rewrite (send_one_valid s0 d k sg0 a); auto.
      + apply IH; auto.
        * intros k' Hk'. apply Hsub. now right.
        * fields. eapply same_controllers_trans; [exact Hc|].
          now apply (same_controllers_set _ _ sg0).
      + unfold in_table. rewrite Ht. apply (Hv k a sg); assumption.
    - injection Hf as <-. exists s0.
      unfold bind, gets, item, act_key, item, lookup, ret, raise.
      rewrite Hsg0. cbv beta iota. rewrite Hd. reflexivity. }
  apply G; auto. apply same_controllers_refl.
Qed.

(** *** The second loop of [step] *)

Lemma commit_loop ids s :
  (forall ts, In ts ids -> In ts (PyDict.keys (signals s))) ->
  for_each ids (fun signal => on_signal signal set_phase) s =
  Ok tt (with_sumo (receives (map (commit_event (signals s)) ids) (sumo s)) s).
Proof.
  revert s. induction ids as [|ts r IH]; intros s Hsub.
  - cbn. now rewrite with_sumo_same.
  - assert (Hk : In ts (PyDict.keys (signals s))) by (apply Hsub; now left).
    apply PyDictFacts.in_keys_get in Hk. destruct Hk as [sg Hsg].
    cbn [for_each map]. unfold bind, on_signal at 1. rewrite Hsg.
    cbn [set_phase]. rewrite set_get_id, with_signals_same by assumption.
    rewrite IH.
    + assert (Hev : commit_event (signals s) ts = SetPhase (sig_id sg) (next_phase sg))
        by (unfold commit_event; now rewrite Hsg).
      fields. rewrite Hev. reflexivity.
    + intros ts' H'. fields. apply Hsub. now right.
Qed.

Lemma commit_phases_returns s :
  (forall ts, In ts (signal_ids s) -> In ts (PyDict.keys (signals s))) ->
  commit_phases s =
  Ok tt (with_sumo
           (receives (map (commit_event (signals s)) (signal_ids s)) (sumo s)) s).
Proof. intros H. unfold commit_phases, bind, gets. now apply commit_loop. Qed.

(** *** The observation loop *)

Lemma observe_signals_returns ids s :
  (forall ts, In ts ids -> In ts (PyDict.keys (signals s))) ->
  (forall ts sg, PyDict.get (signals s) ts = Some sg -> sig_id sg = ts) ->
  exists s', observe_signals ids s = Ok tt s' /\
    frame s s' /\ metrics s' = metrics s /\
    sumo s' = receives (map Sense ids) (sumo s) /\
    same_controllers (signals s) (signals s') /\
    forall ts sg, PyDict.get (signals s) ts = Some sg ->
      exists sg', PyDict.get (signals s') ts = Some sg' /\
                  next_phase sg' = next_phase sg.
Proof.
  intros Hsub Hid. unfold observe_signals.
  apply (for_each_returns
    (fun pre s0 =>
       frame s s0 /\ metrics s0 = metrics s /\
       sumo s0 = receives (map Sense pre) (sumo s) /\
       same_controllers (signals s) (signals s0) /\
       forall ts sg, PyDict.get (signals s) ts = Some sg ->
         exists sg', PyDict.get (signals s0) ts = Some sg' /\
                     next_phase sg' = next_phase sg)).
  - splits; auto using frame_refl, same_controllers_refl. eauto.
  - intros pre x s0 (Hf & Hm & Hsm & Hc & Hn) Hx.
    apply Hsub, PyDictFacts.in_keys_get in Hx. destruct Hx as [sg Hsg].
    destruct (proj2 Hc x sg Hsg) as (sg0 & Hsg0 & Hi & Ht & Hl).
    destruct (Hn x sg Hsg) as (sg0' & Hsg0' & Hn0).
    assert (sg0' = sg0) by congruence. subst sg0'.
    unfold bind, gets, on_signal. rewrite Hsg0. cbn [observe].
    eexists. split; [reflexivity|].
    splits; auto using frame_with_sumo, frame_with_signals.
    + fields. rewrite map_app, receives_app, <- Hsm. cbn.
      rewrite Hi. now rewrite (Hid x sg Hsg).
    + fields. eapply same_controllers_trans; [exact Hc|].
      now apply (same_controllers_set _ _ sg0).
    + intros ts sg1 H1. fields. destruct (string_dec ts x) as [->|Hne].
      * rewrite PyDictFacts.get_set_same. eexists. split; [reflexivity|].
        cbn. congruence.
      * rewrite PyDictFacts.get_set_other by assumption. auto.
Qed.

(** *** The metrics of a step *)

Lemma maximum_nonneg l : 0 <= maximum l.
Proof.
  induction l as [|x l IH]; [cbn; lia|].
  change (maximum (x :: l)) with (Z.max x (maximum l)). lia.
Qed.

Lemma lane_queues_spec sg ls q m :
  0 <= m ->
  lane_queues sg ls q m =
  (q + total (map (full_observation sg) ls),
   Z.max m (maximum (map (full_observation sg) ls))).
Proof.
  revert q m. induction ls as [|l r IH]; intros q m Hm.
  - cbn. f_equal; lia.
  - cbn [lane_queues map total maximum fold_right].
    fold (total (map (full_observation sg) r)).
    fold (maximum (map (full_observation sg) r)).
    destruct (Z.ltb_spec m (full_observation sg l)); rewrite IH by lia; f_equal; lia.
Qed.

Lemma queue_fold (sigs : dict Signal) (ks : list string) (acc : dict Z * dict Z)
  (s : MultiSignal R) :
  (forall k, In k ks -> In k (PyDict.keys sigs)) ->
  exists ql mq,
    fold_each ks acc
      (fun '(queue_lengths, max_queues) signal_id =>
         signal <- item sigs signal_id ;;
         let '(queue_length, max_queue) :=
           lane_queues signal (lanes signal) 0 0 in
         ret (PyDict.set queue_lengths signal_id queue_length,
              PyDict.set max_queues signal_id max_queue)) s
    = Ok (ql, mq) s /\
    forall ts,
      PyDict.get ql ts =
        (if in_dec string_dec ts ks
         then option_map (fun sg => total (lane_queue_values sg)) (PyDict.get sigs ts)
         else PyDict.get (fst acc) ts) /\
      PyDict.get mq ts =
        (if in_dec string_dec ts ks
         then option_map (fun sg => maximum (lane_queue_values sg)) (PyDict.get sigs ts)
         else PyDict.get (snd acc) ts).
Proof.
  revert acc. induction ks as [|k r IH]; intros [ql0 mq0] Hsub.
  - exists ql0, mq0. split; [reflexivity|]. intros ts. now split.
  - assert (Hk : In k (PyDict.keys sigs)) by (apply Hsub; now left).
    apply PyDictFacts.in_keys_get in Hk. destruct Hk as [sg Hsg].
    cbn [fold_each]. unfold bind at 1, item, lookup. rewrite Hsg.
    unfold ret at 1, bind at 1. rewrite lane_queues_spec by lia.
    unfold ret at 1.
    destruct (IH (PyDict.set ql0 k (0 + total (map (full_observation sg) (lanes sg))),
                  PyDict.set mq0 k (Z.max 0 (maximum (map (full_observation sg) (lanes sg))))))
      as (ql & mq & E & H).
    { intros k' Hk'. apply Hsub. now right. }
    exists ql, mq. split; [exact E|]. intros ts. specialize (H ts).
    cbn [fst snd] in H. destruct H as [Hq Hm]. rewrite Hq, Hm.
    assert (Hmax : forall l, Z.max 0 (maximum l) = maximum l).
    { intros l. apply Z.max_r. apply maximum_nonneg. }
    destruct (in_dec string_dec ts r) as [Hr|Hr];
      destruct (in_dec string_dec ts (k :: r)) as [Hkr|Hkr].
    + now split.
    + exfalso. apply Hkr. now right.
    + destruct Hkr as [<-|Hkr]; [|contradiction].
      rewrite !PyDictFacts.get_set_same, Hsg, Hmax. cbn. split; f_equal.
    + cbn [fst snd].
      split; apply PyDictFacts.get_set_other; intros ->; apply Hkr; now left.
Qed.

(** [calc_metrics] returns, appending one metric that holds, for every
    controller, the sum and the maximum of the queues of its lanes *)
Lemma calc_metrics_returns rewards s :
  exists m,
    calc_metrics rewards s = Ok tt (with_metrics (metrics s ++ [m]) s) /\
    m_step m = sim_time (sumo s) /\ m_reward m = rewards /\
    forall ts sg, PyDict.get (signals s) ts = Some sg ->
      PyDict.get (m_queue_lengths m) ts = Some (total (lane_queue_values sg)) /\
      PyDict.get (m_max_queues m) ts = Some (maximum (lane_queue_values sg)).
Proof.
  unfold calc_metrics, bind at 1, gets at 1.
  destruct (queue_fold (signals s) (PyDict.keys (signals s)) ([], []) s)
    as (ql & mq & E & H); [auto|].
  rewrite (bind_returns _ _ _ _ _ E).
  eexists. split; [reflexivity|]. splits; try reflexivity.
  - intros ts sg Hsg. cbn [m_queue_lengths m_max_queues].
    destruct (H ts) as [Hq Hm]. rewrite Hq, Hm.
    destruct (in_dec string_dec ts (PyDict.keys (signals s))) as [Hin|Hout].
    + rewrite Hsg. now split.
    + exfalso. apply Hout, PyDictFacts.in_keys_get. eauto.
Qed.

(** *** [step], phase by phase *)

Lemma same_controllers_ids sigs sigs' :
  same_controllers sigs sigs' ->
  (forall ts sg, PyDict.get sigs ts = Some sg -> sig_id sg = ts) ->
  forall ts sg, PyDict.get sigs' ts = Some sg -> sig_id sg = ts.
Proof.
  intros [K H] Hid ts sg' Hsg'.
  assert (Hin : In ts (PyDict.keys sigs)).
  { rewrite <- K. apply PyDictFacts.in_keys_get. eauto. }
  apply PyDictFacts.in_keys_get in Hin. destruct Hin as [sg Hsg].
  destruct (H ts sg Hsg) as (sg'' & G & I & _).
  assert (sg'' = sg') by congruence. subst. rewrite I. now apply Hid.
Qed.

(** the prologue reads [self] and leaves it as it is *)
Lemma as_mapping_state act s : final (as_mapping act s) = s.
Proof.
  unfold as_mapping, bind at 1, gets at 1.
  destruct (gymma (cfg s)); [|reflexivity].
  unfold bind at 1, gets at 1.
  assert (G : final (dict_of_seq (ts_order s) act s) = s).
  { unfold dict_of_seq.
    apply (fold_each_final (fun s0 => s0 = s)); [reflexivity|].
    intros a [i ts] s0 ->. unfold bind.
    destruct act as [d|l]; cbn; [reflexivity|].
    unfold lookup. now destruct (nth_error l i). }
  unfold bind. destruct (dict_of_seq (ts_order s) act s); exact G.
Qed.

Lemma as_mapping_returns act act' s s0 :
  as_mapping act s = Ok act' s0 -> as_mapping act s = Ok act' s.
Proof.
  intros H. pose proof (as_mapping_state act s) as G.
  rewrite H in G. cbn in G. now subst.
Qed.

Lemma as_mapping_plain act s :
  gymma (cfg s) = false -> as_mapping act s = Ok act s.
Proof. intros H. unfold as_mapping, bind, gets. now rewrite H. Qed.

Lemma step_prologue_raises act s e s0 :
  as_mapping act s = Raise e s0 -> step act s = Raise e s.
Proof.
  intros H. pose proof (as_mapping_state act s) as G.
  rewrite H in G. cbn in G. subst s0.
  unfold step, bind at 1, gets at 1. now rewrite (bind_raises _ _ _ _ _ H).
Qed.

Lemma step_send_raises act act' s e s1 :
  as_mapping act s = Ok act' s -> send_actions act' s = Raise e s1 ->
  step act s = Raise e s1.
Proof.
  intros Hmap Hsend. unfold step, bind at 1, gets at 1.
  rewrite (bind_returns _ _ _ _ _ Hmap). now rewrite (bind_raises _ _ _ _ _ Hsend).
Qed.

(** once every controller has latched, [step] goes through the yellow
    ticks, the commits, the green ticks, the observations and the metrics,
    and reaches its [return] *)
Lemma step_continues act act' s s1 :
  wf s -> as_mapping act s = Ok act' s -> send_actions act' s = Ok tt s1 ->
  exists s' m,
    step act s =
      returned (call (state_fn (cfg s)) (signals s'))
               (call (reward_fn (cfg s)) (signals s'))
               (end_time (cfg s) <=? sim_time (sumo s')) s' /\
    frame s s' /\
    sumo s' = receives (step_events s (commit_event (signals s1))) (sumo s) /\
    metrics s' = metrics s ++ [m] /\
    m_step m = sim_time (sumo s') /\
    m_reward m = call (reward_fn (cfg s)) (signals s') /\
    (forall ts sg, PyDict.get (signals s') ts = Some sg ->
       PyDict.get (m_queue_lengths m) ts = Some (total (lane_queue_values sg)) /\
       PyDict.get (m_max_queues m) ts = Some (maximum (lane_queue_values sg))) /\
    same_controllers (signals s) (signals s') /\
    (forall ts sg1, PyDict.get (signals s1) ts = Some sg1 ->
       exists sg', PyDict.get (signals s') ts = Some sg' /\
                   next_phase sg' = next_phase sg1).
Proof.
  intros Hwf Hmap Hsend.
  pose proof (send_actions_final s act') as Hfin. rewrite Hsend in Hfin.
  cbn [final] in Hfin. destruct Hfin as (Hf1 & Hsm1 & Hm1 & Hc1).
  destruct (frame_fields _ _ Hf1) as (Hcfg1 & _ & Hids1 & _).
  unfold step, bind at 1, gets at 1.
  rewrite (bind_returns _ _ _ _ _ Hmap), (bind_returns _ _ _ _ _ Hsend).
  rewrite (bind_returns _ _ _ _ _ (for_range_step_sim _ _)).
  assert (Hact : forall sm ts, In ts (signal_ids (with_sumo sm s1)) ->
                   In ts (PyDict.keys (signals (with_sumo sm s1)))).
  { intros sm ts Hts. fields. rewrite Hids1 in Hts.
    eapply same_controllers_in; [exact Hc1|]. now apply (wf_active s Hwf). }
  rewrite (bind_returns _ _ _ _ _ (commit_phases_returns _ (Hact _))).
  rewrite (bind_returns _ _ _ _ _ (for_range_step_sim _ _)).
  unfold bind at 1, gets at 1. fields.
  set (s4 := with_sumo _ (with_sumo _ (with_sumo _ s1))).
  destruct (observe_signals_returns (signal_ids s1) s4) as
    (s5 & E5 & Hf5 & Hm5 & Hsm5 & Hc5 & Hn5).
  { intros ts Hts. subst s4. fields. rewrite Hids1 in Hts.
    eapply same_controllers_in; [exact Hc1|]. now apply (wf_active s Hwf). }
  { subst s4. fields. eapply same_controllers_ids; [exact Hc1|].
    apply (wf_ids s Hwf). }
  rewrite (bind_returns _ _ _ _ _ E5). unfold bind at 1, gets at 1.
  destruct (calc_metrics_returns (call (reward_fn (cfg s)) (signals s5)) s5)
    as (m & E6 & Hst & Hrw & Hq).
  rewrite (bind_returns _ _ _ _ _ E6). unfold bind at 1, gets at 1. fields.
  exists (with_metrics (metrics s5 ++ [m]) s5), m. fields.
  assert (Hf4 : frame s s4).
  { subst s4. auto using frame_with_sumo. }
  splits; auto.
  - apply frame_with_metrics. eapply frame_trans; eassumption.
  - rewrite Hsm5. subst s4. fields. rewrite Hcfg1, Hids1, Hsm1.
    unfold step_events. rewrite !receives_app. reflexivity.
  - rewrite Hm5. subst s4. fields. now rewrite Hm1.
  - eapply same_controllers_trans; [exact Hc1|]. subst s4. now fields.
Qed.

(** *** The [return] of [step] *)

Lemma returned_plain observations rewards done s :
  gymma (cfg s) = false ->
  returned observations rewards done s =
  Ok (RetDict observations rewards done (run s)) s.
Proof. intros H. unfold returned, bind, gets. now rewrite H. Qed.

(** under [gymma] the loop lays the two mappings out along the order *)
Lemma layout_fold (observations : dict (ndarray R)) (rewards : dict R)
  order acc_o acc_r (s : MultiSignal R) :
  match
    fold_each order (acc_o, acc_r)
      (fun '(obss, rww) ts =>
         o <- item observations ts ;;
         r <- item rewards ts ;;
         ret (obss ++ [o], rww ++ [r])) s
  with
  | Ok (obss, rww) s' =>
      s' = s /\ exists l_o l_r,
        obss = acc_o ++ l_o /\ rww = acc_r ++ l_r /\
        Forall2 (fun ts v => PyDict.get observations ts = Some v) order l_o /\
        Forall2 (fun ts v => PyDict.get rewards ts = Some v) order l_r
  | Raise e s' =>
      s' = s /\ exists ts, In ts order /\ e = KeyError ts /\
        (PyDict.get observations ts = None \/ PyDict.get rewards ts = None)
  end.
Proof.
  revert acc_o acc_r. induction order as [|ts r IH]; intros acc_o acc_r.
  - cbn. split; [reflexivity|]. exists [], []. rewrite !app_nil_r. auto.
  - cbn [fold_each].
    destruct (PyDict.get observations ts) as [o|] eqn:Ho;
      [destruct (PyDict.get rewards ts) as [w|] eqn:Hw|].
    + assert (Eb : (o0 <- item observations ts ;; r0 <- item rewards ts ;;
                    ret (acc_o ++ [o0], acc_r ++ [r0])) s
                   = Ok (acc_o ++ [o], acc_r ++ [w]) s)
        by (unfold bind, item, lookup; rewrite Ho, Hw; reflexivity).
      rewrite (bind_returns _ _ _ _ _ Eb).
      specialize (IH (acc_o ++ [o]) (acc_r ++ [w])).
      destruct (fold_each r _ _ s) as [[obss rww] s'|e s'].
      * destruct IH as (-> & l_o & l_r & -> & -> & F1 & F2). split; [reflexivity|].
        exists (o :: l_o), (w :: l_r). rewrite <- !app_assoc. splits; auto.
      * destruct IH as (-> & ts' & Hin & -> & Hnone). split; [reflexivity|].
        exists ts'. splits; auto using in_cons.
    + assert (Eb : (o0 <- item observations ts ;; r0 <- item rewards ts ;;
                    ret (acc_o ++ [o0], acc_r ++ [r0])) s
                   = Raise (KeyError ts) s)
        by (unfold bind, item, lookup; rewrite Ho, Hw; reflexivity).
      rewrite (bind_raises _ _ _ _ _ Eb).
      split; [reflexivity|]. exists ts. splits; auto using in_eq.
    + assert (Eb : (o0 <- item observations ts ;; r0 <- item rewards ts ;;
                    ret (acc_o ++ [o0], acc_r ++ [r0])) s
                   = Raise (KeyError ts) s)
        by (unfold bind, item, lookup; rewrite Ho; reflexivity).
      rewrite (bind_raises _ _ _ _ _ Eb).
      split; [reflexivity|]. exists ts. splits; auto using in_eq.
Qed.

Lemma returned_state observations rewards done s :
  final (returned observations rewards done s) = s.
Proof.
  unfold returned, bind at 1, gets at 1.
  destruct (gymma (cfg s)); [|reflexivity].
  unfold bind. pose proof (layout_fold observations rewards (ts_order s) [] [] s) as L.
  destruct (fold_each _ _ _ s) as [[obss rww] s'|e s']; cbn; tauto.
Qed.

(** what [step] returns carries [done], and under [gymma] the
    observations and the rewards of [ts_order], in that order *)
Lemma returned_inv observations rewards done s res s' :
  returned observations rewards done s = Ok res s' ->
  s' = s /\ done_flag res = Some done /\
  (gymma (cfg s) = false -> res = RetDict observations rewards done (run s)) /\
  (gymma (cfg s) = true ->
     exists obss rww, res = RetSeq obss rww [done] (run s) /\
       Forall2 (fun ts v => PyDict.get observations ts = Some v) (ts_order s) obss /\
       Forall2 (fun ts v => PyDict.get rewards ts = Some v) (ts_order s) rww).
Proof.
  unfold returned, bind at 1, gets at 1.
  destruct (gymma (cfg s)) eqn:G.
  - unfold bind. pose proof (layout_fold observations rewards (ts_order s) [] [] s) as L.
    destruct (fold_each _ _ _ s) as [[obss rww] s0|e s0]; [|discriminate].
    destruct L as (-> & l_o & l_r & -> & -> & F1 & F2).
    intros [= <- <-]. splits; auto; [discriminate|].
    intros _. exists l_o, l_r. auto.
  - intros [= <- <-]. splits; auto. discriminate.
Qed.

Lemma returned_exn observations rewards done s e s' :
  returned observations rewards done s = Raise e s' ->
  gymma (cfg s) = true /\ exists ts, In ts (ts_order s) /\ e = KeyError ts /\
    (PyDict.get observations ts = None \/ PyDict.get rewards ts = None).
Proof.
  unfold returned, bind at 1, gets at 1.
  destruct (gymma (cfg s)) eqn:G; [|discriminate].
  unfold bind. pose proof (layout_fold observations rewards (ts_order s) [] [] s) as L.
  destruct (fold_each _ _ _ s) as [[obss rww] s0|e0 s0]; [discriminate|].
  intros [= <- <-]. split; [reflexivity|]. tauto.
Qed.

(** when the two mappings cover [ts_order], [returned] returns *)
Lemma returned_covered observations rewards done s :
  (forall ts, In ts (ts_order s) ->
     In ts (PyDict.keys observations) /\ In ts (PyDict.keys rewards)) ->
  raised (returned observations rewards done s) = false.
Proof.
  intros Hcov. destruct (returned observations rewards done s) as [res s'|e s'] eqn:E;
    [reflexivity|].
  apply returned_exn in E. destruct E as (_ & ts & Hin & _ & Hnone).
  destruct (Hcov ts Hin) as [Ho Hr].
  apply PyDictFacts.in_keys_get in Ho, Hr. destruct Ho as [o Ho], Hr as [r Hr].
  destruct Hnone; congruence.
Qed.

(** *** The invariant *)

Lemma wf_frame s s' :
  wf s -> frame s s' -> same_controllers (signals s) (signals s') -> wf s'.
Proof.
  intros [Ha Hi Ht Hs Hr] Hf Hc.
  destruct (frame_fields _ _ Hf) as (_ & _ & Hids & Hph & Hall & Hst & _ & Hrun & _).
  split.
  - intros ts Hts. rewrite Hids in Hts.
    eapply same_controllers_in; [exact Hc|]. auto.
  - eapply same_controllers_ids; eassumption.
  - now rewrite Hall, Hph.
  - now rewrite Hall, Hst.
  - now rewrite Hrun.
Qed.

(** [step] keeps the invariant, the configuration, the order and the
    identity of the controllers, whether it returns or raises *)
Lemma step_final act s :
  wf s ->
  let s' := final (step act s) in
  wf s' /\ frame s s' /\ same_controllers (signals s) (signals s').
Proof.
  intros Hwf.
  destruct (as_mapping act s) as [act' s0|e s0] eqn:Hmap.
  - apply as_mapping_returns in Hmap.
    pose proof (send_actions_final s act') as Hfin.
    destruct (send_actions act' s) as [[] s1|e s1] eqn:Hsend.
    + destruct (step_continues act act' s s1 Hwf Hmap Hsend)
        as (s' & m & E & Hf & _ & _ & _ & _ & _ & Hc & _).
      rewrite E, returned_state. cbn. eauto using wf_frame.
    + rewrite (step_send_raises _ _ _ _ _ Hmap Hsend).
      cbn in *. destruct Hfin as (Hf & _ & _ & Hc). eauto using wf_frame.
  - rewrite (step_prologue_raises _ _ _ _ Hmap). cbn.
    auto using frame_refl, same_controllers_refl.
Qed.

(** *** [step] as a whole *)

(** a call of [step] that returns went through every phase *)
Lemma step_ok_inv act s r s' :
  wf s -> step act s = Ok r s' ->
  exists act' s1 m,
    as_mapping act s = Ok act' s /\ send_actions act' s = Ok tt s1 /\
    returned (call (state_fn (cfg s)) (signals s'))
             (call (reward_fn (cfg s)) (signals s'))
             (end_time (cfg s) <=? sim_time (sumo s')) s' = Ok r s' /\
    frame s s' /\
    sumo s' = receives (step_events s (commit_event (signals s1))) (sumo s) /\
    metrics s' = metrics s ++ [m] /\
    m_step m = sim_time (sumo s') /\
    m_reward m = call (reward_fn (cfg s)) (signals s') /\
    (forall ts sg, PyDict.get (signals s') ts = Some sg ->
       PyDict.get (m_queue_lengths m) ts = Some (total (lane_queue_values sg)) /\
       PyDict.get (m_max_queues m) ts = Some (maximum (lane_queue_values sg))) /\
    same_controllers (signals s) (signals s').
Proof.
  intros Hwf Hstep.
  pose proof (as_mapping_state act s) as G0.
  destruct (as_mapping act s) as [act' s0|e s0] eqn:Hmap; cbn in G0; subst s0.
  2:{ rewrite (step_prologue_raises _ _ _ _ Hmap) in Hstep. discriminate. }
  destruct (send_actions act' s) as [[] s1|e s1] eqn:Hsend.
  2:{ rewrite (step_send_raises _ _ _ _ _ Hmap Hsend) in Hstep. discriminate. }
  destruct (step_continues act act' s s1 Hwf Hmap Hsend)
    as (s2 & m & E & Hf & Hsm & Hm & Hst & Hrw & Hq & Hc & _).
  rewrite E in Hstep.
  assert (s' = s2).
  { pose proof (returned_state (call (state_fn (cfg s)) (signals s2))
                  (call (reward_fn (cfg s)) (signals s2))
                  (end_time (cfg s) <=? sim_time (sumo s2)) s2) as G.
    rewrite Hstep in G. exact G. }
  subst s2. exists act', s1, m. splits; auto.
Qed.

(** with an index within bounds for every controller, [step] sends the
    session the yellow ticks, the commits of the active controllers, the
    green ticks and their lane queries, leaves every controller latched,
    and returns unless a [gymma] layout misses an identifier *)
Lemma step_valid_spec act s d :
  wf s -> effective_action s act = Some d -> valid_action s d ->
  let s' := final (step act s) in
  sumo s' = receives (step_events s (fun ts => SetPhase ts (index_for d ts))) (sumo s) /\
  (forall ts sg, PyDict.get (signals s) ts = Some sg ->
     latched (signals s') ts = Some (index_for d ts)) /\
  step act s =
    returned (call (state_fn (cfg s)) (signals s'))
             (call (reward_fn (cfg s)) (signals s'))
             (end_time (cfg s) <=? sim_time (sumo s')) s'.
Proof.
  intros Hwf Heff Hv.
  assert (Hmap : as_mapping act s = Ok (ActDict d) s).
  { unfold effective_action in Heff. pose proof (as_mapping_state act s) as G0.
    destruct (as_mapping act s) as [[d0|l] s0|e s0]; try discriminate.
    cbn in G0. congruence. }
  destruct (send_actions_returns s d Hv) as (s1 & Hsend & _ & _ & _ & _ & Hl).
  destruct (step_continues act _ s s1 Hwf Hmap Hsend)
    as (s2 & m & E & _ & Hsm & _ & _ & _ & _ & _ & Hn).
  rewrite E, returned_state. cbn zeta. splits; auto.
  - rewrite Hsm. f_equal. unfold step_events. f_equal. f_equal.
    apply map_ext_in. intros ts Hts.
    apply (wf_active s Hwf), PyDictFacts.in_keys_get in Hts. destruct Hts as [sg Hsg].
    destruct (Hl ts sg Hsg) as (a & Ha & _ & Hs1).
    unfold commit_event, index_for. rewrite Hs1, Ha. cbn.
    now rewrite (wf_ids s Hwf ts sg Hsg).
  - intros ts sg Hsg. destruct (Hl ts sg Hsg) as (a & Ha & _ & Hs1).
    destruct (Hn ts _ Hs1) as (sg' & Hsg' & Hnp).
    unfold latched, index_for. rewrite Hsg', Ha. cbn. now rewrite Hnp.
Qed.

Lemma send_actions_exn act s e s1 :
  send_actions act s = Raise e s1 -> is_protocol_error e = true.
Proof.
  unfold send_actions, bind at 1, gets at 1.
  apply (for_each_exn (fun e => is_protocol_error e = true)).
  intros y s0 e0 s2. unfold bind, gets, item, lookup.
  destruct (PyDict.get (signals s0) y) as [sg|] eqn:Hs; cbn; [|now intros [= <- _]].
  destruct act as [d|l]; cbn; [|now intros [= <- _]].
  unfold item, lookup.
  destruct (PyDict.get d y) as [a|]; cbn; [|now intros [= <- _]].
  unfold on_signal. rewrite Hs.
  destruct (in_table_dec sg a) as [Ha|Ha].
  - now rewrite prep_phase_valid.
  - rewrite prep_phase_invalid by assumption. now intros [= <- _].
Qed.

Lemma as_mapping_exn act s e s1 :
  as_mapping act s = Raise e s1 -> is_protocol_error e = true.
Proof.
  unfold as_mapping, bind at 1, gets at 1.
  destruct (gymma (cfg s)); [|discriminate].
  unfold bind at 1, gets at 1. unfold bind.
  destruct (dict_of_seq (ts_order s) act s) as [d s0|e0 s0] eqn:E; [discriminate|].
  intros [= <- _]. revert E. unfold dict_of_seq.
  apply (fold_each_exn (fun e => is_protocol_error e = true)).
  intros a [i ts] s2 e1 s3. unfold bind.
  destruct act as [d|l]; cbn; [now intros [= <- _]|].
  unfold lookup. destruct (nth_error l i); cbn; [discriminate | now intros [= <- _]].
Qed.

(** *** The deciders *)

Lemma get_in_dict {V} (dv : dict V) k v : PyDict.get dv k = Some v -> In (k, v) dv.
Proof.
  induction dv as [|[k0 v0] r IH]; simpl; [discriminate|].
  destruct (String.eqb k k0) eqn:E.
  - apply String.eqb_eq in E. subst. intros [= ->]. now left.
  - intros H. right. auto.
Qed.

Lemma existsb_eqb_in ts l : existsb (String.eqb ts) l = true -> In ts l.
Proof.
  intros H. apply existsb_exists in H. destruct H as (x & Hx & E).
  apply String.eqb_eq in E. now subst.
Qed.

Lemma wfb_sound s : wfb s = true -> wf s.
Proof.
  unfold wfb. rewrite !andb_true_iff.
  intros [[[[[H1 H2] H3] H4] H5] H6].
  rewrite forallb_forall in H1, H2, H3.
  split.
  - intros ts Hts. apply existsb_eqb_in. auto.
  - intros ts sg H. apply get_in_dict, H2 in H. now apply String.eqb_eq.
  - intros ts Hts. apply existsb_eqb_in. auto.
  - lia.
  - lia.
Qed.

Lemma valid_actionb_sound s d : valid_actionb s d = true -> valid_action s d.
Proof.
  unfold valid_actionb. rewrite forallb_forall. intros H ts sg Hsg.
  apply get_in_dict, H in Hsg.
  destruct (PyDict.get d ts) as [a|]; [|discriminate].
  exists a. split; [reflexivity|]. unfold in_table. lia.
Qed.

Lemma entries_in_table_sound s d :
  entries_in_table s d = true ->
  forall ts a sg, PyDict.get d ts = Some a ->
    PyDict.get (signals s) ts = Some sg -> in_table sg a.
Proof.
  unfold entries_in_table. rewrite forallb_forall. intros H ts a sg Hd Hsg.
  apply get_in_dict, H in Hd. rewrite Hsg in Hd. unfold in_table. lia.
Qed.

Lemma effective_action_some s act d :
  effective_action s act = Some d -> as_mapping act s = Ok (ActDict d) s.
Proof.
  unfold effective_action. intros H. pose proof (as_mapping_state act s) as G0.
  destruct (as_mapping act s) as [[d0|l] s0|e s0]; try discriminate.
  cbn in G0. congruence.
Qed.

(** *** The decision window *)

(** C1: a call of [step] with an index within bounds for every controller
    advances the session by exactly [step_length * step_ratio] ticks:
    [yellow_length * step_ratio] ticks before any commit, then the commit
    of every active controller, then
    [(step_length - yellow_length) * step_ratio] ticks, then the
    observations; the call returns (under [gymma], when the observation and
    reward mappings cover [ts_order]). The decision window of section 3 has
    [0 <= yellow_length <= step_length], and [step_ratio] counts ticks. *)
Theorem step_advances_one_window act s d :
  wf s -> effective_action s act = Some d -> valid_action s d ->
  0 <= yellow_length (cfg s) <= step_length (cfg s) ->
  0 <= step_ratio (cfg s) ->
  let c := cfg s in
  let s' := final (step act s) in
  sim_log (sumo s') =
    sim_log (sumo s)
    ++ repeat Tick (Z.to_nat (yellow_length c * step_ratio c))
    ++ map (fun ts => SetPhase ts (index_for d ts)) (signal_ids s)
    ++ repeat Tick (Z.to_nat ((step_length c - yellow_length c) * step_ratio c))
    ++ map Sense (signal_ids s) /\
  ticks (sim_log (sumo s')) = ticks (sim_log (sumo s)) + step_length c * step_ratio c /\
  sim_time (sumo s') =
    sim_time (sumo s) + step_length c * step_ratio c * sim_delta (sumo s) /\
  ((gymma c = true ->
    forall ts, In ts (ts_order s) ->
      In ts (PyDict.keys (call (state_fn c) (signals s'))) /\
      In ts (PyDict.keys (call (reward_fn c) (signals s')))) ->
   exists r, step act s = Ok r s').
Proof.
  intros Hwf Heff Hv Hy Hr c s'. fold c in Hy, Hr.
  destruct (step_valid_spec act s d Hwf Heff Hv) as (Hsm & _ & E).
  fold s' in Hsm, E. fold c in E.
  assert (Hev : step_events s (fun ts => SetPhase ts (index_for d ts)) =
                repeat Tick (Z.to_nat (yellow_length c * step_ratio c))
                ++ map (fun ts => SetPhase ts (index_for d ts)) (signal_ids s)
                ++ repeat Tick (Z.to_nat ((step_length c - yellow_length c) * step_ratio c))
                ++ map Sense (signal_ids s)).
  { unfold step_events. fold c. rewrite !Z2Nat.inj_mul by lia. reflexivity. }
  assert (Htk : ticks (step_events s (fun ts => SetPhase ts (index_for d ts)))
                = step_length c * step_ratio c).
  { rewrite Hev, !ticks_app, !ticks_repeat, ticks_map_sense.
    rewrite (ticks_map_commit (fun ts => ts) (index_for d)).
    rewrite !Z2Nat.id by nia. lia. }
  splits.
  - now rewrite Hsm, receives_log, Hev.
  - now rewrite Hsm, receives_log, ticks_app, Htk.
  - now rewrite Hsm, receives_time, Htk.
  - intros Hcov. rewrite E.
    destruct (gymma c) eqn:G.
    + pose proof (returned_covered (call (state_fn c) (signals s'))
                    (call (reward_fn c) (signals s'))
                    (end_time c <=? sim_time (sumo s')) s') as Hret.
      pose proof (returned_state (call (state_fn c) (signals s'))
                    (call (reward_fn c) (signals s'))
                    (end_time c <=? sim_time (sumo s')) s') as Hst.
      destruct (returned _ _ _ s') as [r s2|e s2]; cbn in Hst; subst s2.
      * eauto.
      * discriminate Hret.
        intros ts Hts. apply Hcov; auto.
        destruct (step_final act s Hwf) as (_ & Hf & _). fold s' in Hf.
        destruct (frame_fields _ _ Hf) as (_ & _ & _ & _ & _ & _ & Ho & _).
        now rewrite <- Ho.
    + rewrite returned_plain; [eauto|].
      destruct (step_final act s Hwf) as (_ & Hf & _). fold s' in Hf.
      destruct (frame_fields _ _ Hf) as (Hc & _). now rewrite Hc.
Qed.

(** *** Rejected actions *)

(** C2: when the mapping [step] works with has no entry for an active
    intersection, or holds for it an index outside its phase table, [step]
    raises a caller error before any tick and before any commit: the
    session, and with it the simulated time, is as it was, and so are the
    metrics. *)
Theorem step_rejects_bad_action act s d ts :
  wf s -> effective_action s act = Some d ->
  In ts (signal_ids s) -> bad_entry s d ts = true ->
  exists e s', step act s = Raise e s' /\ is_protocol_error e = true /\
    sumo s' = sumo s /\ sim_time (sumo s') = sim_time (sumo s) /\
    sim_log (sumo s') = sim_log (sumo s) /\ metrics s' = metrics s.
Proof.
  intros Hwf Heff Hts Hbad.
  apply effective_action_some in Heff.
  assert (Hin : In ts (PyDict.keys (signals s))) by now apply (wf_active s Hwf).
  assert (Hr : raised (send_actions (ActDict d) s) = true).
  { apply (send_actions_raises s d ts Hin). intros sg Hsg.
    unfold bad_entry in Hbad. rewrite Hsg in Hbad.
    destruct (PyDict.get d ts) as [a|]; [|exact I].
    unfold in_table. apply negb_true_iff in Hbad. lia. }
  pose proof (send_actions_final s (ActDict d)) as Hfin.
  destruct (send_actions (ActDict d) s) as [[] s1|e s1] eqn:Hsend; [discriminate|].
  cbn in Hfin. destruct Hfin as (_ & Hsm & Hm & _).
  exists e, s1. rewrite (step_send_raises _ _ _ _ _ Heff Hsend).
  splits; auto; try now rewrite Hsm.
  now apply send_actions_exn in Hsend.
Qed.

(** *** Termination of the episode *)

(** C3: a call of [step] that returns carries a [done] that is true
    exactly when the simulated time of the session at the end of the call
    has reached [end_time]. *)
Theorem step_done_iff_end_time act s r s' :
  wf s -> step act s = Ok r s' ->
  exists done, done_flag r = Some done /\
    (done = true <-> end_time (cfg s) <= sim_time (sumo s')) /\
    (sim_time (sumo s') < end_time (cfg s) -> done = false).
Proof.
  intros Hwf Hstep.
  destruct (step_ok_inv act s r s' Hwf Hstep) as (act' & s1 & m & _ & _ & Hret & _).
  apply returned_inv in Hret. destruct Hret as (_ & Hd & _).
  exists (end_time (cfg s) <=? sim_time (sumo s')). splits; auto.
  - apply Z.leb_le.
  - intros H. apply Z.leb_gt. exact H.
Qed.

(** *** The metric of a step *)

Lemma maximum_upper l q : In q l -> q <= maximum l.
Proof.
  induction l as [|x l IH]; [intros []|].
  change (maximum (x :: l)) with (Z.max x (maximum l)).
  intros [->|H]; [lia|]. specialize (IH H). lia.
Qed.

Lemma maximum_in l : l <> [] -> (forall q, In q l -> 0 <= q) -> In (maximum l) l.
Proof.
  induction l as [|x l IH]; [congruence|]. intros _ Hpos.
  change (maximum (x :: l)) with (Z.max x (maximum l)).
  destruct l as [|y l].
  - left. cbn. assert (0 <= x) by (apply Hpos; now left). lia.
  - destruct (Z.max_spec x (maximum (y :: l))) as [[_ ->]|[_ ->]].
    + right. apply IH; [discriminate|]. intros q Hq. apply Hpos. now right.
    + now left.
Qed.

Lemma maximum_zero l : (forall q, In q l -> q = 0) -> maximum l = 0.
Proof.
  induction l as [|x l IH]; [reflexivity|]. intros H.
  change (maximum (x :: l)) with (Z.max x (maximum l)).
  rewrite IH by (intros q Hq; apply H; now right).
  rewrite (H x) by now left. reflexivity.
Qed.

(** C7: a call of [step] that returns appends one metric; it holds the
    simulated time, the reward mapping and, for every active intersection,
    the sum of the queues of its lanes and their maximum, which is 0 when
    every lane has queue 0 and otherwise, queues being counts, the largest
    queue of a lane. *)
Theorem step_records_queues act s r s' :
  wf s -> step act s = Ok r s' ->
  exists m,
    metrics s' = metrics s ++ [m] /\
    m_step m = sim_time (sumo s') /\
    m_reward m = call (reward_fn (cfg s')) (signals s') /\
    (gymma (cfg s') = false -> exists o done eps, r = RetDict o (m_reward m) done eps) /\
    forall ts, In ts (signal_ids s') ->
      exists sg, PyDict.get (signals s') ts = Some sg /\
        let qs := lane_queue_values sg in
        PyDict.get (m_queue_lengths m) ts = Some (total qs) /\
        PyDict.get (m_max_queues m) ts = Some (maximum qs) /\
        (forall q, In q qs -> q <= maximum qs) /\
        ((forall q, In q qs -> q = 0) -> maximum qs = 0) /\
        (qs <> [] -> (forall q, In q qs -> 0 <= q) -> In (maximum qs) qs).
Proof.
  intros Hwf Hstep.
  destruct (step_ok_inv act s r s' Hwf Hstep)
    as (act' & s1 & m & _ & _ & Hret & Hf & _ & Hm & Hst & Hrw & Hq & _).
  destruct (frame_fields _ _ Hf) as (Hcfg & _).
  pose proof (step_final act s Hwf) as Hfin. rewrite Hstep in Hfin.
  cbn in Hfin. destruct Hfin as (Hwf' & _).
  exists m. rewrite Hcfg. splits; auto.
  - intros G. apply returned_inv in Hret. destruct Hret as (_ & _ & Hr & _).
    rewrite Hcfg in Hr. rewrite (Hr G), Hrw. eauto.
  - intros ts Hts.
    apply (wf_active s' Hwf'), PyDictFacts.in_keys_get in Hts. destruct Hts as [sg Hsg].
    exists sg. destruct (Hq ts sg Hsg) as [Hql Hmq].
    cbn zeta. splits; auto using maximum_upper, maximum_zero, maximum_in.
Qed.

(** *** Which controllers latch, commit and observe *)

(** C9: [step] latches a phase for every controller of [self.signals],
    active or not: with an index within bounds for each of them, every
    controller ends latched on its index while only the controllers of
    [signal_ids] commit and observe; and when one of them, active or not,
    has no entry, [step] raises before any tick, a [KeyError] for the first
    controller without an entry when the entries that are there are within
    bounds. *)
Theorem step_latches_every_controller act s d :
  wf s -> effective_action s act = Some d ->
  (valid_action s d ->
   let s' := final (step act s) in
   (forall ts sg, PyDict.get (signals s) ts = Some sg ->
      latched (signals s') ts = Some (index_for d ts)) /\
   filter (fun e => negb (is_tick e)) (sim_log (sumo s')) =
     filter (fun e => negb (is_tick e)) (sim_log (sumo s))
     ++ map (fun ts => SetPhase ts (index_for d ts)) (signal_ids s)
     ++ map Sense (signal_ids s)) /\
  (forall ts, In ts (PyDict.keys (signals s)) -> missing d ts = true ->
   exists e s', step act s = Raise e s' /\ is_protocol_error e = true /\
     sumo s' = sumo s /\
     ((forall ts' a sg, PyDict.get d ts' = Some a ->
         PyDict.get (signals s) ts' = Some sg -> in_table sg a) ->
      exists ts0, find (missing d) (PyDict.keys (signals s)) = Some ts0 /\
                  e = KeyError ts0)).
Proof.
  intros Hwf Heff. split.
  - intros Hv s'.
    destruct (step_valid_spec act s d Hwf Heff Hv) as (Hsm & Hl & _).
    fold s' in Hsm, Hl. split; [exact Hl|].
    rewrite Hsm, receives_log. unfold step_events.
    rewrite !filter_app.
    assert (Ht : forall n, filter (fun e => negb (is_tick e)) (repeat Tick n) = []).
    { induction n as [|n IH]; [reflexivity|].
      cbn [repeat filter is_tick negb]. exact IH. }
    assert (Hc : forall l, filter (fun e => negb (is_tick e))
                   (map (fun ts => SetPhase ts (index_for d ts)) l)
                 = map (fun ts => SetPhase ts (index_for d ts)) l).
    { induction l as [|x l IH]; [reflexivity|].
      cbn [map filter is_tick negb]. now rewrite IH. }
    assert (Ho : forall l, filter (fun e => negb (is_tick e)) (map Sense l)
                           = map Sense l).
    { induction l as [|x l IH]; [reflexivity|].
      cbn [map filter is_tick negb]. now rewrite IH. }
    now rewrite !Ht, Hc, Ho.
  - intros ts Hin Hmiss. apply effective_action_some in Heff.
    assert (Hr : raised (send_actions (ActDict d) s) = true).
    { apply (send_actions_raises s d ts Hin). intros sg _.
      unfold missing in Hmiss. now destruct (PyDict.get d ts). }
    pose proof (send_actions_final s (ActDict d)) as Hfin.
    destruct (send_actions (ActDict d) s) as [[] s1|e s1] eqn:Hsend; [discriminate|].
    cbn in Hfin. destruct Hfin as (_ & Hsm & _).
    exists e, s1. rewrite (step_send_raises _ _ _ _ _ Heff Hsend).
    splits; auto.
    + now apply send_actions_exn in Hsend.
    + intros Hval.
      destruct (find (missing d) (PyDict.keys (signals s))) as [ts0|] eqn:Hfind.
      * exists ts0. split; [reflexivity|].
        destruct (send_actions_key_error s d ts0 Hval Hfind) as (s2 & E).
        congruence.
      * exfalso. pose proof (find_none _ _ Hfind ts Hin). congruence.
Qed.

(** *** [reset], phase by phase *)

Lemma in_firstn {A} (l : list A) n x : In x (firstn n l) -> In x l.
Proof.
  intros H. rewrite <- (firstn_skipn n l). apply in_or_app. now left.
Qed.

Lemma skipn_nth {A} (l : list A) k x :
  nth_error l k = Some x -> skipn k l = x :: skipn (S k) l.
Proof.
  revert k. induction l as [|y l IH]; intros [|k]; simpl; try discriminate.
  - now intros [= ->].
  - intros H. now apply IH in H.
Qed.

(** the loop that takes the first [n] identifiers of [all_ts_ids] *)
Lemma take_loop n k s :
  (k + n <= List.length (all_ts_ids s))%nat ->
  for_each (seq k n) (fun i =>
    s0 <- gets (fun s0 => s0) ;;
    ts <- lookup (nth_error (all_ts_ids s0) i) IndexError ;;
    modify (with_signal_ids (signal_ids s0 ++ [ts]))) s
  = Ok tt (with_signal_ids (signal_ids s ++ firstn n (skipn k (all_ts_ids s))) s).
Proof.
  revert k s. induction n as [|n IH]; intros k s Hk.
  - cbn. rewrite app_nil_r. destruct s. reflexivity.
  - cbn [seq for_each]. unfold bind at 1, bind at 1, gets at 1.
    destruct (nth_error (all_ts_ids s) k) as [x|] eqn:Hx.
    2:{ apply nth_error_None in Hx. lia. }
    cbn [lookup]. unfold ret at 1, bind at 1, modify at 1.
    rewrite IH by (fields; lia). fields.
    rewrite (skipn_nth _ _ _ Hx). cbn [firstn]. now rewrite <- app_assoc.
Qed.

(** the controllers [reset] and [__init__] build: each identifier of
    [ids] gets a new controller on the phase table [self.phases] holds for
    it, the other controllers stay *)
Lemma build_signals_returns ids zero s :
  (forall ts, In ts ids -> In ts (PyDict.keys (phases s))) ->
  exists s', build_signals ids zero s = Ok tt s' /\
    s' = with_wait_metric (wait_metric s') (with_signals (signals s') s) /\
    (forall ts, In ts ids ->
       exists p, PyDict.get (phases s) ts = Some p /\
         PyDict.get (signals s') ts =
           Some (new (map_name (cfg s)) (sumo s) ts (yellow_length (cfg s)) p)) /\
    (forall ts, ~ In ts ids -> PyDict.get (signals s') ts = PyDict.get (signals s) ts).
Proof.
  intros Hsub. unfold build_signals.
  apply (for_each_returns
    (fun pre s0 =>
       s0 = with_wait_metric (wait_metric s0) (with_signals (signals s0) s) /\
       (forall ts, In ts pre ->
          exists p, PyDict.get (phases s) ts = Some p /\
            PyDict.get (signals s0) ts =
              Some (new (map_name (cfg s)) (sumo s) ts (yellow_length (cfg s)) p)) /\
       (forall ts, ~ In ts pre -> PyDict.get (signals s0) ts = PyDict.get (signals s) ts))).
  - splits; auto; [destruct s; reflexivity | intros ts []].
  - intros pre x s0 (Hf & Hdone & Htodo) Hx.
    apply Hsub, PyDictFacts.in_keys_get in Hx. destruct Hx as [p Hp].
    assert (Hph : phases s0 = phases s) by (rewrite Hf; reflexivity).
    assert (Hcf : cfg s0 = cfg s) by (rewrite Hf; reflexivity).
    assert (Hsu : sumo s0 = sumo s) by (rewrite Hf; reflexivity).
    unfold bind at 1, gets at 1. unfold bind at 1, item, lookup.
    rewrite Hph, Hp. unfold ret at 1, bind at 1, modify at 1.
    rewrite Hcf, Hsu.
    assert (G : forall s1,
      signals s1 = PyDict.set (signals s0) x
                     (new (map_name (cfg s)) (sumo s) x (yellow_length (cfg s)) p) ->
      (forall ts, In ts (pre ++ [x]) ->
         exists p0, PyDict.get (phases s) ts = Some p0 /\
           PyDict.get (signals s1) ts =
             Some (new (map_name (cfg s)) (sumo s) ts (yellow_length (cfg s)) p0)) /\
      (forall ts, ~ In ts (pre ++ [x]) ->
         PyDict.get (signals s1) ts = PyDict.get (signals s) ts)).
    { intros s1 ->. split.
      - intros ts Hts. destruct (string_dec ts x) as [->|Hne].
        + exists p. now rewrite PyDictFacts.get_set_same.
        + rewrite PyDictFacts.get_set_other by assumption. apply Hdone.
          apply in_app_or in Hts. destruct Hts as [H|[H|[]]]; congruence.
      - intros ts Hts. rewrite PyDictFacts.get_set_other.
        + apply Htodo. intros H. apply Hts, in_or_app. now left.
        + intros ->. apply Hts, in_or_app. right. now left. }
    destruct zero;
      (eexists; split; [unfold modify, ret; reflexivity|];
       split; [rewrite Hf; reflexivity | now apply G]).
Qed.

Lemma start_signals_returns s :
  0 <= ts_starter s <= Z.of_nat (List.length (all_ts_ids s)) ->
  let t' := if (run s mod 30 =? 0)
               && (ts_starter s <? Z.of_nat (List.length (all_ts_ids s)))
            then ts_starter s + 1 else ts_starter s in
  start_signals s =
  Ok tt (with_signal_ids (firstn (Z.to_nat t') (all_ts_ids s)) (with_ts_starter t' s)).
Proof.
  intros Hst t'. unfold start_signals.
  unfold bind at 1, modify at 1. unfold bind at 1, modify at 1.
  unfold bind at 1, gets at 1.
  assert (E : (if (run s mod 30 =? 0)
                  && (ts_starter s <? Z.of_nat (List.length (all_ts_ids s)))
               then with_ts_starter (ts_starter s + 1) s else s)
              = with_ts_starter t' s).
  { subst t'. destruct (_ && _); [reflexivity | destruct s; reflexivity]. }
  rewrite E. fields.
  assert (Ht : 0 <= t' <= Z.of_nat (List.length (all_ts_ids s))).
  { subst t'. destruct (run s mod 30 =? 0); cbn [andb]; [|lia].
    destruct (Z.ltb_spec (ts_starter s) (Z.of_nat (List.length (all_ts_ids s)))); lia. }
  rewrite take_loop by (fields; lia). reflexivity.
Qed.

Lemma in_order_spec {V} (d : dict V) order acc (s : MultiSignal R) :
  match fold_each order acc (fun rets ts => v <- item d ts ;; ret (rets ++ [v])) s with
  | Ok rets s' =>
      s' = s /\ exists l, rets = acc ++ l /\
        Forall2 (fun ts v => PyDict.get d ts = Some v) order l
  | Raise e s' =>
      s' = s /\ exists ts, In ts order /\ e = KeyError ts /\ PyDict.get d ts = None
  end.
Proof.
  revert acc. induction order as [|ts r IH]; intros acc.
  - cbn. split; [reflexivity|]. exists []. rewrite app_nil_r. auto.
  - cbn [fold_each]. destruct (PyDict.get d ts) as [v|] eqn:Hv.
    + assert (Eb : (v0 <- item d ts ;; ret (acc ++ [v0])) s = Ok (acc ++ [v]) s)
        by (unfold bind, item, lookup; rewrite Hv; reflexivity).
      rewrite (bind_returns _ _ _ _ _ Eb). specialize (IH (acc ++ [v])).
      destruct (fold_each r _ _ s) as [rets s'|e s'].
      * destruct IH as (-> & l & -> & F). split; [reflexivity|].
        exists (v :: l). rewrite <- app_assoc. auto.
      * destruct IH as (-> & ts' & Hin & -> & Hn). split; [reflexivity|].
        exists ts'. splits; auto using in_cons.
    + assert (Eb : (v0 <- item d ts ;; ret (acc ++ [v0])) s = Raise (KeyError ts) s)
        by (unfold bind, item, lookup; rewrite Hv; reflexivity).
      rewrite (bind_raises _ _ _ _ _ Eb).
      split; [reflexivity|]. exists ts. splits; auto using in_eq.
Qed.

Lemma initial_observation_state s : final (initial_observation s) = s.
Proof.
  unfold initial_observation, bind at 1, gets at 1.
  destruct (gymma (cfg s)); [|reflexivity].
  unfold bind, in_order.
  pose proof (in_order_spec (call (state_fn (cfg s)) (signals s)) (ts_order s) [] s) as L.
  destruct (fold_each _ _ _ s) as [rets s'|e s']; cbn; tauto.
Qed.

(** what [reset] returns: the observation mapping, or under [gymma] its
    values along [ts_order] *)
Lemma initial_observation_inv s res s' :
  initial_observation s = Ok res s' ->
  s' = s /\
  (gymma (cfg s) = false -> res = ObsDict (call (state_fn (cfg s)) (signals s))) /\
  (gymma (cfg s) = true ->
     exists rets, res = ObsSeq rets /\
       Forall2 (fun ts v => PyDict.get (call (state_fn (cfg s)) (signals s)) ts = Some v)
               (ts_order s) rets).
Proof.
  unfold initial_observation, bind at 1, gets at 1.
  destruct (gymma (cfg s)) eqn:G.
  - unfold bind, in_order.
    pose proof (in_order_spec (call (state_fn (cfg s)) (signals s)) (ts_order s) [] s) as L.
    destruct (fold_each _ _ _ s) as [rets s0|e s0]; [|discriminate].
    destruct L as (-> & l & -> & F). intros [= <- <-].
    splits; auto; [discriminate|]. intros _. exists l. auto.
  - intros [= <- <-]. splits; auto. discriminate.
Qed.

Lemma initial_observation_returns s :
  (gymma (cfg s) = true ->
   forall ts, In ts (ts_order s) ->
     In ts (PyDict.keys (call (state_fn (cfg s)) (signals s)))) ->
  raised (initial_observation s) = false.
Proof.
  intros Hcov. unfold initial_observation, bind at 1, gets at 1.
  destruct (gymma (cfg s)) eqn:G; [|reflexivity].
  unfold bind, in_order.
  pose proof (in_order_spec (call (state_fn (cfg s)) (signals s)) (ts_order s) [] s) as L.
  destruct (fold_each _ _ _ s) as [rets s0|e s0]; [reflexivity|].
  destruct L as (_ & ts & Hin & _ & Hn).
  apply (Hcov eq_refl), PyDictFacts.in_keys_get in Hin. destruct Hin as [v Hv].
  congruence.
Qed.

(** [reset] saves the metrics of the episode that ends, empties them,
    counts the episode, opens a session and warms it up, settles the
    active identifiers, rebuilds and primes their controllers, and reaches
    its [return] *)
Lemma reset_spec s :
  wf s ->
  exists s',
    reset s = initial_observation s' /\
    cfg s' = cfg s /\ rt s' = rt s /\ phases s' = phases s /\
    all_ts_ids s' = all_ts_ids s /\ ts_order s' = ts_order s /\
    run s' = run s + 1 /\ metrics s' = [] /\
    disk s' = (if run s =? 0 then disk s
               else PyDict.set (disk s) (metrics_path s)
                               (map (csv_line (rt s)) (metrics s))) /\
    ts_starter s' =
      (if ((run s + 1) mod 30 =? 0)
          && (ts_starter s <? Z.of_nat (List.length (all_ts_ids s)))
       then ts_starter s + 1 else ts_starter s) /\
    signal_ids s' = firstn (Z.to_nat (ts_starter s')) (all_ts_ids s) /\
    wf s' /\
    (forall ts, In ts (signal_ids s') ->
       exists sg, PyDict.get (signals s') ts = Some sg /\
                  PyDict.get (phases s) ts = Some (phase_table sg)) /\
    (forall ts, In ts (PyDict.keys (signals s)) -> In ts (PyDict.keys (signals s'))).
Proof.
  intros Hwf. unfold reset. unfold bind at 1, gets at 1.
  set (s1 := if run s =? 0 then s
             else with_disk (PyDict.set (disk s) (metrics_path s)
                               (map (csv_line (rt s)) (metrics s))) s).
  assert (E1 : (if negb (run s =? 0) then save_metrics else ret tt) s = Ok tt s1).
  { subst s1. destruct (run s =? 0); reflexivity. }
  rewrite (bind_returns _ _ _ _ _ E1).
  assert (F1 : cfg s1 = cfg s /\ rt s1 = rt s /\ phases s1 = phases s /\
               all_ts_ids s1 = all_ts_ids s /\ ts_order s1 = ts_order s /\
               run s1 = run s /\ ts_starter s1 = ts_starter s /\
               signals s1 = signals s /\
               disk s1 = (if run s =? 0 then disk s
                          else PyDict.set (disk s) (metrics_path s)
                                          (map (csv_line (rt s)) (metrics s)))).
  { subst s1. destruct (run s =? 0); splits; reflexivity. }
  clearbody s1. clear E1.
  destruct F1 as (C1 & R1 & P1 & A1 & O1 & N1 & T1 & G1 & D1).
  unfold bind at 1, modify at 1. unfold bind at 1, modify at 1.
  unfold new_simulation.
  unfold bind at 1, bind at 1, modify at 1, modify at 1.
  unfold bind at 1, gets at 1.
  rewrite (bind_returns _ _ _ _ _ (for_range_step_sim _ _)).
  match goal with |- context [bind start_signals _ ?st] => set (s2 := st) end.
  assert (F2 : cfg s2 = cfg s /\ rt s2 = rt s /\ phases s2 = phases s /\
               all_ts_ids s2 = all_ts_ids s /\ ts_order s2 = ts_order s /\
               run s2 = run s + 1 /\ ts_starter s2 = ts_starter s /\
               signals s2 = signals s /\ metrics s2 = [] /\
               disk s2 = (if run s =? 0 then disk s
                          else PyDict.set (disk s) (metrics_path s)
                                          (map (csv_line (rt s)) (metrics s)))).
  { subst s2. fields. splits; auto. now rewrite N1. }
  clearbody s2. destruct F2 as (C2 & R2 & P2 & A2 & O2 & N2 & T2 & G2 & M2 & D2).
  assert (Hst2 : 0 <= ts_starter s2 <= Z.of_nat (List.length (all_ts_ids s2)))
    by (rewrite T2, A2; apply (wf_starter s Hwf)).
  rewrite (bind_returns _ _ _ _ _ (start_signals_returns s2 Hst2)).
  unfold bind at 1, gets at 1. fields.
  rewrite N2, T2, A2.
  set (t' := if ((run s + 1) mod 30 =? 0)
                && (ts_starter s <? Z.of_nat (List.length (all_ts_ids s)))
             then ts_starter s + 1 else ts_starter s).
  assert (Ht' : 0 <= t' <= Z.of_nat (List.length (all_ts_ids s))).
  { pose proof (wf_starter s Hwf). subst t'.
    destruct ((run s + 1) mod 30 =? 0); cbn [andb]; [|lia].
    destruct (Z.ltb_spec (ts_starter s) (Z.of_nat (List.length (all_ts_ids s)))); lia. }
  set (ids := firstn (Z.to_nat t') (all_ts_ids s)).
  assert (Hids : forall ts, In ts ids -> In ts (all_ts_ids s)).
  { intros ts H. subst ids. eapply in_firstn. exact H. }
  set (s3 := with_signal_ids ids (with_ts_starter t' s2)).
  destruct (build_signals_returns ids true s3) as (s4 & E4 & Hf4 & Hnew & Hold).
  { intros ts Hts. subst s3. fields. rewrite P2. apply (wf_tables s Hwf). auto. }
  rewrite (bind_returns _ _ _ _ _ E4).
  assert (Hid4 : forall ts sg, PyDict.get (signals s4) ts = Some sg -> sig_id sg = ts).
  { intros ts sg H. destruct (in_dec string_dec ts ids) as [Hin|Hout].
    - destruct (Hnew ts Hin) as (p & _ & G). rewrite G in H. now injection H as <-.
    - rewrite (Hold ts Hout) in H. subst s3. fields. rewrite G2 in H.
      exact (wf_ids s Hwf ts sg H). }
  destruct (observe_signals_returns ids s4) as (s5 & E5 & Hf5 & Hm5 & _ & Hc5 & _);
    [|exact Hid4|].
  { intros ts Hts. destruct (Hnew ts Hts) as (p & _ & G).
    apply PyDictFacts.in_keys_get. eauto. }
  rewrite (bind_returns _ _ _ _ _ E5).
  exists s5. split; [reflexivity|].
  assert (F5 : s5 = with_metrics (metrics s5) (with_sumo (sumo s5)
                 (with_wait_metric (wait_metric s4) (with_signals (signals s5) s3)))).
  { unfold frame in Hf5. rewrite Hf5 at 1. rewrite Hf4 at 1. reflexivity. }
  assert (M5 : metrics s5 = []).
  { rewrite Hm5, Hf4. subst s3. fields. exact M2. }
  assert (Hkeys : forall ts, In ts ids -> exists sg,
            PyDict.get (signals s5) ts = Some sg /\
            PyDict.get (phases s) ts = Some (phase_table sg)).
  { intros ts Hts. destruct (Hnew ts Hts) as (p & Hp & G).
    destruct (proj2 Hc5 ts _ G) as (sg' & G' & _ & Ht & _).
    exists sg'. split; [exact G'|]. rewrite Ht. cbn. subst s3. fields.
    now rewrite <- P2. }
  rewrite F5. subst s3. fields.
  splits; auto.
  - split.
    + intros ts Hts. fields.
      destruct (Hkeys ts Hts) as (sg & G & _). apply PyDictFacts.in_keys_get. eauto.
    + intros ts sg H. fields.
      eapply same_controllers_ids; [exact Hc5 | exact Hid4 | exact H].
    + intros ts Hts. fields. rewrite A2 in Hts. rewrite P2. now apply (wf_tables s Hwf).
    + fields. rewrite A2. exact Ht'.
    + fields. rewrite N2. pose proof (wf_run s Hwf). lia.
  - intros ts Hts.
    eapply same_controllers_in; [exact Hc5|].
    destruct (in_dec string_dec ts ids) as [Hin|Hout].
    + destruct (Hnew ts Hin) as (p & _ & G). apply PyDictFacts.in_keys_get. eauto.
    + apply PyDictFacts.in_keys_get. rewrite (Hold ts Hout).
      fields. rewrite G2. now apply PyDictFacts.in_keys_get.
Qed.

Lemma reset_final s :
  wf s ->
  exists s', final (reset s) = s' /\ reset s = initial_observation s' /\
    cfg s' = cfg s /\ rt s' = rt s /\ phases s' = phases s /\
    all_ts_ids s' = all_ts_ids s /\ ts_order s' = ts_order s /\
    run s' = run s + 1 /\ metrics s' = [] /\
    disk s' = (if run s =? 0 then disk s
               else PyDict.set (disk s) (metrics_path s)
                               (map (csv_line (rt s)) (metrics s))) /\
    ts_starter s' =
      (if ((run s + 1) mod 30 =? 0)
          && (ts_starter s <? Z.of_nat (List.length (all_ts_ids s)))
       then ts_starter s + 1 else ts_starter s) /\
    signal_ids s' = firstn (Z.to_nat (ts_starter s')) (all_ts_ids s) /\
    wf s' /\
    (forall ts, In ts (signal_ids s') ->
       exists sg, PyDict.get (signals s') ts = Some sg /\
                  PyDict.get (phases s) ts = Some (phase_table sg)) /\
    (forall ts, In ts (PyDict.keys (signals s)) -> In ts (PyDict.keys (signals s'))).
Proof.
  intros Hwf. destruct (reset_spec s Hwf) as (s' & E & H).
  exists s'. split; [|split; [exact E | exact H]].
  rewrite E. apply initial_observation_state.
Qed.

(** *** Runs of steps *)

Lemma steps_cons_final act rest s :
  final (steps (act :: rest) s) =
  match step act s with
  | Ok _ s1 => final (steps rest s1)
  | Raise _ s1 => s1
  end.
Proof.
  cbn [steps]. unfold bind, gets, ret.
  destruct (step act s) as [r s1|e s1]; [|reflexivity].
  destruct (steps rest s1); reflexivity.
Qed.

Lemma steps_final acts s :
  wf s ->
  let sn := final (steps acts s) in
  wf sn /\ frame s sn /\ same_controllers (signals s) (signals sn).
Proof.
  revert s. induction acts as [|act rest IH]; intros s Hwf sn.
  - cbn. auto using frame_refl, same_controllers_refl.
  - subst sn. rewrite steps_cons_final.
    destruct (step_final act s Hwf) as (Hwf1 & Hf1 & Hc1).
    destruct (step act s) as [r s1|e s1]; cbn [final] in *; [|auto].
    destruct (IH s1 Hwf1) as (Hw & Hf & Hc).
    eauto using frame_trans, same_controllers_trans.
Qed.

(** a run of steps that returns appended one metric per step, in the
    order of the steps, each stamped with the time its step ended at *)
Lemma steps_metrics acts s rs sn :
  wf s -> steps acts s = Ok rs sn ->
  exists ms, metrics sn = metrics s ++ ms /\
    List.length ms = List.length acts /\ List.length rs = List.length acts /\
    map m_step ms = map fst rs.
Proof.
  revert s rs. induction acts as [|act rest IH]; intros s rs Hwf.
  - cbn. intros [= <- <-]. exists []. now rewrite app_nil_r.
  - cbn [steps]. intros H.
    apply bind_ok in H. destruct H as (r & s1 & Hstep & H).
    unfold bind at 1, gets at 1 in H.
    apply bind_ok in H. destruct H as (rs' & s2 & Hrest & H).
    injection H as <- <-.
    destruct (step_ok_inv act s r s1 Hwf Hstep)
      as (_ & _ & m & _ & _ & _ & _ & _ & Hm & Hst & _).
    destruct (step_final act s Hwf) as (Hwf1 & _). rewrite Hstep in Hwf1.
    destruct (IH s1 rs' Hwf1 Hrest) as (ms & Hms & Hl & Hlr & Hmap).
    exists (m :: ms). rewrite Hms, Hm, <- app_assoc. cbn.
    splits; auto. now rewrite Hst, Hmap.
Qed.

Lemma firstn_plus {A} (l : list A) n m :
  firstn (n + m) l = firstn n l ++ firstn m (skipn n l).
Proof.
  revert l. induction n as [|n IH]; intros l; [reflexivity|].
  destruct l as [|x l]; cbn [Nat.add firstn skipn app].
  - now rewrite firstn_nil.
  - now rewrite IH.
Qed.

(** *** Staggered activation *)

(** C4: from one [reset] to the next, whatever steps are taken in
    between, the active identifiers of the first are a prefix of those of
    the second, which has at most one more; it has one more exactly when
    the number of the new episode is a multiple of 30 and not all
    identifiers were active; the active identifiers never outnumber
    [all_ts_ids]. *)
Theorem staggered_activation_monotonic s0 acts :
  wf s0 ->
  let s1 := final (reset s0) in
  let s2 := final (reset (final (steps acts s1))) in
  exists extra,
    signal_ids s2 = signal_ids s1 ++ extra /\
    (List.length extra <= 1)%nat /\
    (List.length extra = 1%nat <->
       run s2 mod 30 = 0 /\
       (List.length (signal_ids s1) < List.length (all_ts_ids s1))%nat) /\
    (List.length (signal_ids s1) <= List.length (all_ts_ids s1))%nat /\
    (List.length (signal_ids s2) <= List.length (all_ts_ids s2))%nat /\
    all_ts_ids s2 = all_ts_ids s1 /\ run s2 = run s1 + 1.
Proof.
  intros Hwf0 s1 s2.
  destruct (reset_final s0 Hwf0)
    as (s1' & E1 & _ & _ & _ & _ & A1 & _ & N1 & _ & _ & _ & I1 & Hwf1 & _).
  fold s1 in E1. subst s1'.
  destruct (steps_final acts s1 Hwf1) as (Hwfn & Hfn & _).
  destruct (frame_fields _ _ Hfn) as (_ & _ & _ & _ & An & Tn & _ & Nn & _).
  destruct (reset_final _ Hwfn)
    as (s2' & E2 & _ & _ & _ & _ & A2 & _ & N2 & _ & _ & T2 & I2 & Hwf2 & _).
  fold s2 in E2. subst s2'.
  rewrite An, Tn, Nn in *. rewrite <- A1 in I1.
  pose proof (wf_starter s1 Hwf1) as B1.
  set (len := List.length (all_ts_ids s1)) in *.
  set (t1 := ts_starter s1) in *.
  assert (L1 : List.length (signal_ids s1) = Z.to_nat t1).
  { rewrite I1, length_firstn. fold len. lia. }
  exists (firstn (Z.to_nat (ts_starter s2) - Z.to_nat t1)
                 (skipn (Z.to_nat t1) (all_ts_ids s1))).
  assert (L2 : List.length (firstn (Z.to_nat (ts_starter s2) - Z.to_nat t1)
                              (skipn (Z.to_nat t1) (all_ts_ids s1)))
               = (Z.to_nat (ts_starter s2) - Z.to_nat t1)%nat).
  { rewrite length_firstn, length_skipn. fold len. rewrite T2.
    destruct (_ && _) eqn:C; [|lia].
    apply andb_true_iff in C. destruct C as [_ C]. apply Z.ltb_lt in C. lia. }
  rewrite L2, L1, A2, N2. splits.
  - rewrite I2, I1, <- firstn_plus. f_equal. rewrite T2.
    destruct (_ && _); lia.
  - rewrite T2. destruct (_ && _); lia.
  - rewrite T2. destruct ((run s1 + 1) mod 30 =? 0) eqn:C30; cbn [andb].
    + apply Z.eqb_eq in C30.
      destruct (Z.ltb_spec t1 (Z.of_nat len)).
      * split; [intros _; split; [exact C30 | lia] | intros _; lia].
      * split; [lia | intros [_ H']; lia].
    + apply Z.eqb_neq in C30. split; [lia | intros [H' _]; contradiction].
  - lia.
  - rewrite I2, length_firstn. fold len. lia.
  - reflexivity.
  - reflexivity.
Qed.

(** *** The persisted log *)

Lemma close_returns s :
  close s = Ok tt (with_disk (PyDict.set (disk s) (metrics_path s)
                                (map (csv_line (rt s)) (metrics s))) s).
Proof. reflexivity. Qed.

(** C6: the steps of an episode each append one metric, and the log the
    next [reset], or [close], writes for the episode holds one row per
    step taken since the [reset] that opened it, in the order of the
    steps: the rows are the renderings of the metrics in order, and the
    metrics are stamped, in order, with the times the steps ended at. *)
Theorem metrics_log_complete s0 acts rs sn :
  wf s0 ->
  let s1 := final (reset s0) in
  steps acts s1 = Ok rs sn ->
  let rows := map (csv_line (rt sn)) (metrics sn) in
  metrics s1 = [] /\
  List.length (metrics sn) = List.length acts /\
  map m_step (metrics sn) = map fst rs /\
  List.length rows = List.length acts /\
  PyDict.get (disk (final (reset sn))) (metrics_path sn) = Some rows /\
  PyDict.get (disk (final (close sn))) (metrics_path sn) = Some rows /\
  metrics (final (reset sn)) = [].
Proof.
  intros Hwf0 s1 Hsteps rows.
  destruct (reset_final s0 Hwf0)
    as (s1' & E1 & _ & _ & _ & _ & _ & _ & N1 & M1 & _ & _ & _ & Hwf1 & _).
  fold s1 in E1. subst s1'.
  destruct (steps_metrics acts s1 rs sn Hwf1 Hsteps) as (ms & Hms & Hl & _ & Hmap).
  rewrite M1 in Hms. cbn [app] in Hms.
  pose proof (steps_final acts s1 Hwf1) as Hfin. rewrite Hsteps in Hfin.
  cbn [final] in Hfin. destruct Hfin as (Hwfn & Hfn & _).
  destruct (frame_fields _ _ Hfn) as (_ & _ & _ & _ & _ & _ & _ & Nn & _).
  destruct (reset_final sn Hwfn)
    as (s2 & E2 & _ & _ & _ & _ & _ & _ & _ & M2 & D2 & _).
  assert (Hrun : (run sn =? 0) = false).
  { apply Z.eqb_neq. pose proof (wf_run s0 Hwf0). lia. }
  rewrite Hrun in D2.
  subst rows. rewrite E2, D2, close_returns. cbn [final disk with_disk].
  rewrite !PyDictFacts.get_set_same, length_map, Hms. splits; auto.
Qed.

(** *** [__init__] *)

(** the comprehension that builds [self.phases] *)
Lemma phases_fold (sm : Sim) ids acc (s : MultiSignal R) ps s' :
  fold_each ids acc
    (fun acc0 lightID =>
       logic <- lookup (nth_error (sim_programs sm lightID) 0) IndexError ;;
       ret (PyDict.set acc0 lightID (filter keep_phase logic))) s = Ok ps s' ->
  s' = s /\
  (forall lightID, In lightID ids ->
     exists logic rest, sim_programs sm lightID = logic :: rest /\
       PyDict.get ps lightID = Some (filter keep_phase logic)) /\
  (forall lightID, ~ In lightID ids -> PyDict.get ps lightID = PyDict.get acc lightID).
Proof.
  revert acc. induction ids as [|k r IH]; intros acc.
  - cbn. intros [= <- <-]. splits; auto. intros l [].
  - cbn [fold_each]. intros H. apply bind_ok in H.
    destruct H as (acc1 & s1 & E & H).
    unfold bind, lookup in E.
    destruct (sim_programs sm k) as [|logic rest] eqn:Hp; [discriminate|].
    cbn in E. injection E as <- <-.
    destruct (IH _ H) as (-> & Hin & Hout). splits; auto.
    + intros l [<-|Hl]; [|auto].
      destruct (in_dec string_dec k r) as [Hr|Hr]; [auto|].
      exists logic, rest. split; [exact Hp|].
      now rewrite (Hout k Hr), PyDictFacts.get_set_same.
    + intros l Hl. rewrite Hout by (intros G; apply Hl; now right).
      apply PyDictFacts.get_set_other. intros ->. apply Hl. now left.
Qed.

(** a run of [build_signals] that returned found a phase table for every
    identifier *)
Lemma build_signals_found ids zero s s' :
  build_signals ids zero s = Ok tt s' ->
  forall ts, In ts ids -> In ts (PyDict.keys (phases s)).
Proof.
  unfold build_signals. intros H.
  apply (for_each_inv
    (fun pre s0 => phases s0 = phases s /\
                   forall ts, In ts pre -> In ts (PyDict.keys (phases s)))
    _ _ _ _) in H.
  - tauto.
  - split; [reflexivity | intros ts []].
  - intros pre x s0 s1 [Hph Hpre] Hx E.
    apply bind_ok in E. destruct E as (s0' & s0'' & E0 & E).
    injection E0 as <- <-.
    apply bind_ok in E. destruct E as (p & s2 & Ep & E).
    unfold item, lookup in Ep.
    destruct (PyDict.get (phases s0) x) as [p0|] eqn:Hp; [|discriminate].
    injection Ep as <- <-.
    apply bind_ok in E. destruct E as ([] & s3 & Em & E).
    injection Em as <-.
    assert (Hph1 : phases s1 = phases s).
    { destruct zero; injection E as <-; exact Hph. }
    split; [exact Hph1|].
    intros ts Hts. apply in_app_or in Hts. destruct Hts as [Hts|[<-|[]]]; [auto|].
    apply PyDictFacts.in_keys_get. rewrite <- Hph. eauto.
Qed.

(** the loop of [__init__] over the observations: [ts_order] receives
    their identifiers in order *)
Lemma order_loop (observations : dict (ndarray R)) ks s s' :
  for_each ks (fun ts =>
     o <- item observations ts ;;
     let o_shape := shape o in
     modify (fun s => with_obs_shape (PyDict.set (obs_shape s) ts o_shape) s) ;;;
     modify (fun s => with_ts_order (ts_order s ++ [ts]) s) ;;;
     modify (fun s => with_observation_space (observation_space s ++ [o_shape]) s) ;;;
     if String.eqb ts "top_mgr" || String.eqb ts "bot_mgr" then ret tt
     else
       s <- gets (fun s => s) ;;
       p <- item (phases s) ts ;;
       modify (with_action_space (action_space s ++ [Z.of_nat (List.length p)]))) s
  = Ok tt s' ->
  ts_order s' = ts_order s ++ ks /\
  s' = with_action_space (action_space s')
         (with_observation_space (observation_space s')
            (with_ts_order (ts_order s') (with_obs_shape (obs_shape s') s))).
Proof.
  intros H.
  apply (for_each_inv
    (fun pre s0 =>
       ts_order s0 = ts_order s ++ pre /\
       s0 = with_action_space (action_space s0)
              (with_observation_space (observation_space s0)
                 (with_ts_order (ts_order s0) (with_obs_shape (obs_shape s0) s))))
    _ _ _ _) in H; [exact H | |].
  - split; [now rewrite app_nil_r | destruct s; reflexivity].
  - clear H. intros pre x s0 s1 [Ho Hf] _ E.
    apply bind_ok in E. destruct E as (o & s2 & Eo & E).
    unfold item, lookup in Eo.
    destruct (PyDict.get observations x) as [o0|]; [|discriminate].
    injection Eo as <- <-. cbn zeta in E.
    unfold bind at 1, modify at 1 in E. unfold bind at 1, modify at 1 in E.
    unfold bind at 1, modify at 1 in E.
    destruct (String.eqb x "top_mgr" || String.eqb x "bot_mgr").
    + injection E as <-. fields. split.
      * now rewrite Ho, <- app_assoc.
      * rewrite Hf. reflexivity.
    + unfold bind at 1, gets at 1 in E.
      apply bind_ok in E. destruct E as (p & s3 & Ep & E).
      unfold item, lookup in Ep. fields.
      destruct (PyDict.get (phases s0) x) as [p0|]; [|discriminate].
      injection Ep as <- <-. injection E as <-. fields. split.
      * now rewrite Ho, <- app_assoc.
      * rewrite Hf. reflexivity.
Qed.

(** what [__init__] leaves: every identifier of [all_ts_ids] has its
    controller and its phase table, all of them count as started, none is
    active yet, and [ts_order] lists the identifiers of the first
    observation *)
Lemma init_spec r a s :
  init r a = Ok tt s ->
  wf s /\
  rt s = r /\ run s = 0 /\ metrics s = [] /\ signal_ids s = [] /\
  ts_starter s = Z.of_nat (List.length (all_ts_ids s)) /\
  all_ts_ids s = (if 0 <? Z.of_nat (List.length (a_lights a))
                  then a_lights a else sim_ids (sumo s)) /\
  state_fn (cfg s) = a_state_fn a /\ reward_fn (cfg s) = a_reward_fn a /\
  gymma (cfg s) = a_gymma a /\
  ts_order s = PyDict.keys (call (a_state_fn a) (signals s)) /\
  (forall ts, In ts (PyDict.keys (signals s)) <-> In ts (all_ts_ids s)) /\
  (forall ts sg, PyDict.get (signals s) ts = Some sg ->
     PyDict.get (phases s) ts = Some (phase_table sg)) /\
  (forall lightID, In lightID (sim_ids (sumo s)) ->
     exists logic rest, sim_programs (sumo s) lightID = logic :: rest /\
       PyDict.get (phases s) lightID = Some (filter keep_phase logic)) /\
  (forall lightID, In lightID (PyDict.keys (phases s)) -> In lightID (sim_ids (sumo s))).
Proof.
  unfold init. intros H.
  apply bind_ok in H. destruct H as ([] & s1 & E1 & H).
  assert (F1 : rt s1 = r /\ state_fn (cfg s1) = a_state_fn a /\
               reward_fn (cfg s1) = a_reward_fn a /\ gymma (cfg s1) = a_gymma a).
  { unfold modify in E1. injection E1 as <-.
    destruct (a_route a) as [rt0|]; [|now splits].
    destruct (str_in "grid4x4" rt0); [now splits|].
    destruct (str_in "arterial4x4" rt0); now splits. }
  clear E1. destruct F1 as (Hrt & Hsf & Hrf & Hgy).
  apply bind_ok in H. destruct H as ([] & s2 & E2 & H).
  apply bind_ok in H. destruct H as ([] & s3 & E3 & H).
  apply bind_ok in H. destruct H as (s3' & s3'' & E3' & H).
  injection E3' as <- <-.
  apply bind_ok in H. destruct H as (ps & s4 & Eps & H).
  apply phases_fold in Eps. destruct Eps as (-> & Hps & Hps').
  apply bind_ok in H. destruct H as ([] & s5 & E5 & H).
  apply bind_ok in H. destruct H as ([] & s6 & E6 & H).
  apply bind_ok in H. destruct H as ([] & s7 & E7 & H).
  apply bind_ok in H. destruct H as ([] & s8 & E8 & H).
  apply bind_ok in H. destruct H as ([] & s9 & E9 & H).
  apply bind_ok in H. destruct H as ([] & s10 & E10 & H).
  apply bind_ok in H. destruct H as ([] & s11 & E11 & H).
  apply bind_ok in H. destruct H as ([] & s12 & E12 & H).
  apply bind_ok in H. destruct H as (all0 & s12' & Eall & H).
  injection Eall as <- <-.
  apply bind_ok in H. destruct H as ([] & s13 & Eb & H).
  set (sm := traci_start (rt s1) (init_cmd s1)).
  set (all := if 0 <? Z.of_nat (List.length (a_lights a)) then a_lights a else sim_ids sm).
  assert (F3 : signal_ids s3 = sim_ids sm /\ sumo s3 = sm).
  { unfold modify in E2, E3. injection E2 as <-. injection E3 as <-. now split. }
  destruct F3 as (I3 & S3). rewrite I3, S3 in Hps. rewrite I3 in Hps'.
  assert (F12 : cfg s12 = cfg s1 /\ rt s12 = rt s1 /\ sumo s12 = sm /\
                signal_ids s12 = [] /\ phases s12 = ps /\ signals s12 = [] /\
                all_ts_ids s12 = all /\
                ts_starter s12 = Z.of_nat (List.length all)).
  { unfold modify in E2, E3, E5, E6, E7, E8, E9, E10, E11, E12.
    injection E2 as <-. injection E3 as <-. injection E5 as <-. injection E6 as <-.
    injection E7 as <-. injection E8 as <-. injection E9 as <-. injection E10 as <-.
    injection E11 as <-. injection E12 as <-. now splits. }
  clear E2 E3 E5 E6 E7 E8 E9 E10 E11 E12 s2 s3 s5 s6 s7 s8 s9 s10 s11 I3 S3.
  destruct F12 as (C2 & R2 & S2 & I2 & P2 & G2 & A2 & T2).
  rewrite A2 in Eb, H.
  pose proof (build_signals_found _ _ _ _ Eb) as Hfound.
  destruct (build_signals_returns all false s12 Hfound) as (s3' & Eb' & Hf3 & Hnew & Hold).
  rewrite Eb in Eb'. injection Eb' as <-. clear Eb.
  assert (F3 : cfg s13 = cfg s1 /\ rt s13 = rt s1 /\ sumo s13 = sm /\
               signal_ids s13 = [] /\ phases s13 = ps /\
               all_ts_ids s13 = all /\
               ts_starter s13 = Z.of_nat (List.length all)).
  { rewrite Hf3. cbn [cfg rt sumo signal_ids phases all_ts_ids ts_starter
                      with_wait_metric with_signals]. now splits. }
  destruct F3 as (C3 & R3 & S3 & I3 & P3 & A3 & T3).
  assert (Hid3 : forall ts sg, PyDict.get (signals s13) ts = Some sg -> sig_id sg = ts).
  { intros ts sg Hsg. destruct (in_dec string_dec ts all) as [Hin|Hout].
    - destruct (Hnew ts Hin) as (p & _ & G). rewrite G in Hsg. now injection Hsg as <-.
    - rewrite (Hold ts Hout), G2 in Hsg. discriminate. }
  assert (Hk3 : forall ts, In ts (PyDict.keys (signals s13)) <-> In ts all).
  { intros ts. rewrite PyDictFacts.in_keys_get. split.
    - intros [sg Hsg]. destruct (in_dec string_dec ts all) as [Hin|Hout]; [exact Hin|].
      rewrite (Hold ts Hout), G2 in Hsg. discriminate.
    - intros Hin. destruct (Hnew ts Hin) as (p & _ & G). eauto. }
  assert (Htab3 : forall ts sg, PyDict.get (signals s13) ts = Some sg ->
                    PyDict.get ps ts = Some (phase_table sg)).
  { intros ts sg Hsg.
    assert (Hin : In ts all) by (apply Hk3, PyDictFacts.in_keys_get; eauto).
    destruct (Hnew ts Hin) as (p & Hp & G). rewrite G in Hsg. injection Hsg as <-.
    cbn. now rewrite <- P2. }
  clear Hnew Hold Hf3.
  apply bind_ok in H. destruct H as ([] & s14 & Eo & H).
  destruct (observe_signals_returns all s13) as (s4' & Eo' & Hf4 & _ & Hsm4 & Hc4 & _);
    [intros ts Hts; now apply Hk3 | exact Hid3 |].
  rewrite Eo in Eo'. injection Eo' as <-. clear Eo.
  destruct (frame_fields _ _ Hf4) as (C4 & R4 & I4 & P4 & A4 & T4 & _).
  clear Hf4.
  apply bind_ok in H. destruct H as (s14' & s14'' & Eg & H).
  injection Eg as <- <-.
  apply bind_ok in H. destruct H as ([] & s15 & E15 & H).
  apply bind_ok in H. destruct H as ([] & s16 & El & H).
  apply order_loop in El. destruct El as (Ho16 & Hf16).
  assert (F15 : ts_order s15 = [] /\ s15 = with_ts_order [] s14).
  { unfold modify in E15. injection E15 as <-. now split. }
  destruct F15 as (O15 & E15'). clear E15.
  rewrite O15 in Ho16. cbn [app] in Ho16.
  assert (F16 : cfg s16 = cfg s14 /\ rt s16 = rt s14 /\ sumo s16 = sumo s14 /\
                signal_ids s16 = signal_ids s14 /\ phases s16 = phases s14 /\
                signals s16 = signals s14 /\ all_ts_ids s16 = all_ts_ids s14 /\
                ts_starter s16 = ts_starter s14).
  { rewrite Hf16, E15'. now splits. }
  clear Hf16 E15' O15.
  destruct F16 as (C6 & R6 & S6 & I6 & P6 & G6 & A6 & T6).
  apply bind_ok in H. destruct H as ([] & s17 & E17 & H).
  apply bind_ok in H. destruct H as ([] & s18 & E18 & H).
  apply bind_ok in H. destruct H as ([] & s19 & E19 & H).
  apply bind_ok in H. destruct H as ([] & s20 & E20 & H).
  apply bind_ok in H. destruct H as ([] & s21 & E21 & H).
  assert (F : state_fn (cfg s) = state_fn (cfg s16) /\
              reward_fn (cfg s) = reward_fn (cfg s16) /\
              gymma (cfg s) = gymma (cfg s16) /\
              rt s = rt s16 /\ sumo s = sumo s16 /\
              signal_ids s = signal_ids s16 /\ phases s = phases s16 /\
              signals s = signals s16 /\ all_ts_ids s = all_ts_ids s16 /\
              ts_starter s = ts_starter s16 /\ ts_order s = ts_order s16 /\
              run s = 0 /\ metrics s = []).
  { unfold modify in E17, E18, E19, E20, E21, H.
    injection E17 as <-. injection E18 as <-. injection E19 as <-.
    injection E20 as <-. injection E21 as <-. injection H as <-. now splits. }
  clear E17 E18 E19 E20 E21 H s17 s18 s19 s20 s21.
  destruct F as (Fs & Fr & Fg & Frt & Fsm & Fi & Fp & Fsig & Fa & Ft & Fo & Frun & Fm).
  rewrite Fs, Fr, Fg, Frt, Fsm, Fi, Fp, Fsig, Fa, Ft, Fo, Frun, Fm.
  assert (Hwf : wf s).
  { split.
    - intros ts Hts. rewrite Fi, I6, I4, I3 in Hts. destruct Hts.
    - intros ts sg Hsg. rewrite Fsig, G6 in Hsg.
      eapply same_controllers_ids; [exact Hc4 | exact Hid3 | exact Hsg].
    - intros ts Hts. rewrite Fa, A6, A4, A3 in Hts.
      rewrite Fp, P6, P4, P3, <- P2. auto.
    - rewrite Ft, T6, T4, T3, Fa, A6, A4, A3. lia.
    - rewrite Frun. lia. }
  rewrite Ho16, C6, R6, S6, I6, P6, G6, A6, T6, C4, R4, I4, P4, A4, T4,
    C3, R3, I3, P3, A3, T3, Hsf, Hrf, Hgy, Hrt, Hsm4, S3.
  destruct (receives_static (map Sense all) sm) as (Hids & Hprog & _).
  rewrite Hids, Hprog.
  splits; auto.
  - intros ts. rewrite (proj1 Hc4). apply Hk3.
  - intros ts sg Hsg.
    assert (Hin : In ts (PyDict.keys (signals s13))).
    { rewrite <- (proj1 Hc4). apply PyDictFacts.in_keys_get. eauto. }
    apply PyDictFacts.in_keys_get in Hin. destruct Hin as [sg3 G].
    destruct (proj2 Hc4 ts _ G) as (sg' & G' & _ & Ht & _).
    assert (sg' = sg) by congruence. subst sg'. rewrite Ht. now apply Htab3.
  - intros l Hl. apply PyDictFacts.in_keys_get in Hl. destruct Hl as [p Hp].
    destruct (in_dec string_dec l (sim_ids sm)) as [Hin|Hout]; [exact Hin|].
    rewrite (Hps' l Hout) in Hp. discriminate.
Qed.

(** *** The phase tables *)

Lemma str_in_char c (str : string) :
  str_in (String c "") str = true <-> occurs c str.
Proof.
  unfold occurs. induction str as [|b r IH].
  - cbn. split; [discriminate | intros []].
  - cbn [str_in String.prefix list_ascii_of_string In].
    destruct (ascii_dec c b) as [->|Hne].
    + assert (Hp : String.prefix "" r = true) by (destruct r; reflexivity).
      rewrite Hp. cbn. split; auto.
    + cbn [orb]. rewrite IH. split; [auto|]. intros [H|H]; [congruence | exact H].
Qed.

Lemma lower_ascii_g c :
  lower_ascii c = "g"%char <-> c = "g"%char \/ c = "G"%char.
Proof.
  destruct c as [[] [] [] [] [] [] [] []]; vm_compute;
    (split; [intros H; try discriminate H; auto | intros [H|H]; try discriminate H; auto]).
Qed.

Lemma lower_occurs_g (str : string) :
  occurs "g" (lower str) <-> occurs "g" str \/ occurs "G" str.
Proof.
  unfold occurs. induction str as [|b r IH].
  - cbn. tauto.
  - cbn [lower list_ascii_of_string In]. rewrite IH.
    pose proof (lower_ascii_g b) as Hb.
    split.
    + intros [H|[H|H]]; auto. apply Hb in H. destruct H; auto.
    + intros [[H|H]|[H|H]]; auto; left; apply Hb; auto.
Qed.

(** the filter of [self.phases] keeps the phases whose state has no ['y']
    and has a ['g'] or a ['G'] *)
Lemma keep_phase_spec p :
  keep_phase p = true <->
  ~ occurs "y" (state p) /\ (occurs "g" (state p) \/ occurs "G" (state p)).
Proof.
  unfold keep_phase. rewrite andb_true_iff, negb_true_iff.
  rewrite <- lower_occurs_g, <- !str_in_char.
  destruct (str_in "y" (state p)); split; intros [H1 H2]; split; auto; congruence.
Qed.

(** C8: [__init__] derives, for every signal of the simulator, the phase
    table from the first program logic: exactly its phases whose state has
    no ['y'] and has a ['g'] or a ['G'], in their order; [reset], [step]
    and [close] leave [self.phases] as it is, and every controller that
    [__init__] or [reset] builds holds the table of its identifier. *)
Theorem phase_tables_derived_once r a s :
  init r a = Ok tt s ->
  (forall lightID, In lightID (sim_ids (sumo s)) ->
     exists logic rest,
       sim_programs (sumo s) lightID = logic :: rest /\
       PyDict.get (phases s) lightID = Some (filter keep_phase logic) /\
       forall p, In p (filter keep_phase logic) <->
         In p logic /\ ~ occurs "y" (state p) /\
         (occurs "g" (state p) \/ occurs "G" (state p))) /\
  (forall ts sg, PyDict.get (signals s) ts = Some sg ->
     PyDict.get (phases s) ts = Some (phase_table sg)) /\
  wf s /\
  (forall s0, wf s0 ->
     phases (final (reset s0)) = phases s0 /\
     (forall act, phases (final (step act s0)) = phases s0) /\
     phases (final (close s0)) = phases s0 /\
     forall ts, In ts (signal_ids (final (reset s0))) ->
       exists sg, PyDict.get (signals (final (reset s0))) ts = Some sg /\
                  PyDict.get (phases s0) ts = Some (phase_table sg)).
Proof.
  intros H. apply init_spec in H.
  destruct H as (Hwf & _ & _ & _ & _ & _ & _ & _ & _ & _ & _ & _ & Htab & Hph & _).
  splits; auto.
  - intros l Hl. destruct (Hph l Hl) as (logic & rest & Hp & Hg).
    exists logic, rest. splits; auto.
    intros p. rewrite filter_In, keep_phase_spec. tauto.
  - intros s0 Hwf0.
    destruct (reset_final s0 Hwf0)
      as (s1 & E & _ & _ & _ & P1 & _ & _ & _ & _ & _ & _ & _ & _ & Hc & _).
    rewrite E. splits; auto.
    intros act. destruct (step_final act s0 Hwf0) as (_ & Hf & _).
    now destruct (frame_fields _ _ Hf) as (_ & _ & _ & Hp & _).
Qed.

(** *** The two conventions *)

Lemma get_mapping_from_other {V} (acc : dict V) order l ts :
  ~ In ts order -> PyDict.get (mapping_from acc order l) ts = PyDict.get acc ts.
Proof.
  revert acc l. induction order as [|k r IH]; intros acc l Hn; [reflexivity|].
  destruct l as [|v l']; [reflexivity|]. cbn [mapping_from].
  rewrite IH by (intros G; apply Hn; now right).
  apply PyDictFacts.get_set_other. intros ->. apply Hn. now left.
Qed.

(** a sequence turned into a mapping along an order and laid out again
    along that order is the sequence *)
Lemma along_mapping_from {V} (acc : dict V) order l :
  NoDup order -> List.length l = List.length order ->
  along order (mapping_from acc order l) = Some l.
Proof.
  revert acc l. induction order as [|k r IH]; intros acc l Hnd Hlen.
  - destruct l; [reflexivity | discriminate].
  - destruct l as [|v l']; [discriminate|]. inversion Hnd as [|? ? Hk Hr]. subst.
    cbn [along mapping_from].
    rewrite get_mapping_from_other, PyDictFacts.get_set_same by assumption.
    rewrite IH by (auto; cbn in Hlen; lia). reflexivity.
Qed.

Lemma keys_mapping_from {V} (acc : dict V) order l :
  NoDup order -> List.length l = List.length order ->
  (forall ts, In ts order -> ~ In ts (PyDict.keys acc)) ->
  PyDict.keys (mapping_from acc order l) = PyDict.keys acc ++ order.
Proof.
  revert acc l. induction order as [|k r IH]; intros acc l Hnd Hlen Hdis.
  - destruct l; cbn; now rewrite app_nil_r.
  - destruct l as [|v l']; [discriminate|]. inversion Hnd as [|? ? Hk Hr]. subst.
    cbn [mapping_from]. rewrite IH; auto.
    + rewrite PyDictFacts.keys_set_absent by (apply Hdis; now left).
      now rewrite <- app_assoc.
    + intros ts Hts. rewrite PyDictFacts.in_keys_set. intros [->|G]; [contradiction|].
      apply (Hdis ts); [now right | exact G].
Qed.

(** a mapping laid out along an order and turned into a mapping again
    holds what the mapping held for the identifiers of the order *)
Lemma mapping_from_along {V} (d acc : dict V) order l ts :
  along order d = Some l -> In ts order ->
  PyDict.get (mapping_from acc order l) ts = PyDict.get d ts.
Proof.
  revert acc l. induction order as [|k r IH]; intros acc l Hal Hin; [destruct Hin|].
  cbn [along] in Hal.
  destruct (PyDict.get d k) as [v|] eqn:Hk; [|discriminate].
  destruct (along r d) as [l'|] eqn:Hr; [|discriminate].
  injection Hal as <-. cbn [mapping_from].
  destruct (in_dec string_dec ts r) as [Hts|Hts]; [now apply IH|].
  destruct Hin as [->|Hin]; [|contradiction].
  now rewrite get_mapping_from_other, PyDictFacts.get_set_same.
Qed.

Lemma along_Forall2 {V} (d : dict V) order l :
  Forall2 (fun ts v => PyDict.get d ts = Some v) order l -> along order d = Some l.
Proof.
  induction 1 as [|ts v order l Hv _ IH]; [reflexivity|].
  cbn [along]. now rewrite Hv, IH.
Qed.

(** the prologue of [step] on a sequence that has an entry for every
    identifier of the order *)
Lemma dict_of_seq_returns order l (s : MultiSignal R) :
  (List.length order <= List.length l)%nat ->
  dict_of_seq order (ActSeq l) s = Ok (mapping_of order l) s.
Proof.
  intros Hlen. unfold dict_of_seq, mapping_of.
  assert (G : forall ord k acc,
            (k + List.length ord <= List.length l)%nat ->
            fold_each (combine (seq k (List.length ord)) ord) acc
              (fun dict_act '(i, ts) =>
                 a <- act_idx (ActSeq l) i ;; ret (PyDict.set dict_act ts a)) s
            = Ok (mapping_from acc ord (skipn k l)) s).
  { induction ord as [|ts r IH]; intros k acc Hk.
    - cbn. now destruct (skipn k l).
    - cbn [List.length seq combine fold_each].
      destruct (nth_error l k) as [v|] eqn:Hv.
      2:{ apply nth_error_None in Hv. cbn in Hk. lia. }
      assert (Eb : (a <- act_idx (ActSeq l) k ;; ret (PyDict.set acc ts a)) s
                   = Ok (PyDict.set acc ts v) s)
        by (unfold bind, act_idx, lookup; rewrite Hv; reflexivity).
      rewrite (bind_returns _ _ _ _ _ Eb).
      rewrite IH by (cbn in Hk; lia).
      now rewrite (skipn_nth _ _ _ Hv). }
  apply (G order 0%nat []). lia.
Qed.

(** what [__init__] leaves as [ts_order] has no identifier twice, the
    first observation being a mapping *)
Lemma init_order_nodup r a s :
  (forall sigs, NoDup (PyDict.keys (call (a_state_fn a) sigs))) ->
  init r a = Ok tt s -> NoDup (ts_order s).
Proof.
  intros Hnd H. apply init_spec in H.
  destruct H as (_ & _ & _ & _ & _ & _ & _ & _ & _ & _ & Ho & _).
  rewrite Ho. apply Hnd.
Qed.

(** C5: under [gymma], an action sequence with one entry per identifier
    of [ts_order] becomes the mapping that, laid out along [ts_order], is
    the sequence again; and what [step] returns are the observation and
    reward mappings of the dictionary convention laid out along [ts_order],
    which turned into mappings along [ts_order] again hold what those
    mappings held, for every identifier when these mappings have no
    identifier outside [ts_order]. *)
Theorem conventions_round_trip l s r s' :
  wf s -> gymma (cfg s) = true -> NoDup (ts_order s) ->
  List.length l = List.length (ts_order s) ->
  step (ActSeq l) s = Ok r s' ->
  let order := ts_order s in
  let observations := call (state_fn (cfg s)) (signals s') in
  let rewards := call (reward_fn (cfg s)) (signals s') in
  effective_action s (ActSeq l) = Some (mapping_of order l) /\
  PyDict.keys (mapping_of order l) = order /\
  along order (mapping_of order l) = Some l /\
  exists obss rww done,
    r = RetSeq obss rww [done] (run s') /\
    returned observations rewards done (with_cfg (cfg s') s') =
      Ok (RetSeq obss rww [done] (run s')) (with_cfg (cfg s') s') /\
    along order observations = Some obss /\
    along order rewards = Some rww /\
    (forall ts, In ts order ->
       PyDict.get (mapping_of order obss) ts = PyDict.get observations ts /\
       PyDict.get (mapping_of order rww) ts = PyDict.get rewards ts) /\
    ((forall ts, In ts (PyDict.keys observations) -> In ts order) ->
     forall ts, PyDict.get (mapping_of order obss) ts = PyDict.get observations ts) /\
    ((forall ts, In ts (PyDict.keys rewards) -> In ts order) ->
     forall ts, PyDict.get (mapping_of order rww) ts = PyDict.get rewards ts).
Proof.
  intros Hwf Hg Hnd Hlen Hstep order observations rewards.
  assert (Heff : effective_action s (ActSeq l) = Some (mapping_of order l)).
  { unfold effective_action, as_mapping, bind, gets. rewrite Hg.
    subst order. rewrite dict_of_seq_returns by lia. reflexivity. }
  destruct (step_ok_inv _ s r s' Hwf Hstep)
    as (act' & s1 & m & _ & _ & Hret & Hf & _).
  destruct (frame_fields _ _ Hf) as (Hcfg & _ & _ & _ & _ & _ & Hord & Hrun & _).
  pose proof Hret as Hret'.
  apply returned_inv in Hret. destruct Hret as (_ & _ & _ & Hseq).
  rewrite Hcfg, Hord in Hseq. destruct (Hseq Hg) as (obss & rww & -> & Fo & Fr).
  fold order observations rewards in Fo, Fr, Hret'.
  apply along_Forall2 in Fo, Fr.
  splits; auto.
  - unfold mapping_of. rewrite keys_mapping_from; auto.
  - unfold mapping_of. now apply along_mapping_from.
  - exists obss, rww, (end_time (cfg s) <=? sim_time (sumo s')).
    assert (Hsame : with_cfg (cfg s') s' = s') by (destruct s'; reflexivity).
    rewrite Hsame. splits; auto.
    + intros ts Hts. unfold mapping_of.
      split; eapply mapping_from_along; eauto.
    + intros Hsub ts. unfold mapping_of.
      destruct (in_dec string_dec ts order) as [Hin|Hout].
      * eapply mapping_from_along; eauto.
      * rewrite get_mapping_from_other by assumption. symmetry.
        apply PyDictFacts.get_none_keys. intros G. apply Hout. auto.
    + intros Hsub ts. unfold mapping_of.
      destruct (in_dec string_dec ts order) as [Hin|Hout].
      * eapply mapping_from_along; eauto.
      * rewrite get_mapping_from_other by assumption. symmetry.
        apply PyDictFacts.get_none_keys. intros G. apply Hout. auto.
Qed.

End Orchestrator.

(** ** The properties on the demo network *)

Lemma step_advances_one_window_witness :
  let s := demo.episode1 false in
  let s' := final (step (ActDict demo.go) s) in
  ticks (sim_log (sumo s')) = ticks (sim_log (sumo s)) + 10 /\
  sim_time (sumo s') = sim_time (sumo s) + 10 /\
  exists r, step (ActDict demo.go) s = Ok r s'.
Proof.
  intros s s'.
  destruct (step_advances_one_window (ActDict demo.go) s demo.go)
    as (_ & Htk & Htm & Hret).
  - apply wfb_sound. vm_compute. reflexivity.
  - vm_compute. reflexivity.
  - apply valid_actionb_sound. vm_compute. reflexivity.
  - vm_compute. split; discriminate.
  - vm_compute. discriminate.
  - split; [exact Htk|]. split; [exact Htm|].
    apply Hret. intros G. vm_compute in G. discriminate G.
Defined.

Lemma step_rejects_bad_action_witness :
  exists e s', step (ActDict demo.out_of_range) (demo.episode1 false) = Raise e s' /\
    sim_time (sumo s') = sim_time (sumo (demo.episode1 false)) /\
    sim_log (sumo s') = sim_log (sumo (demo.episode1 false)).
Proof.
  destruct (step_rejects_bad_action (ActDict demo.out_of_range) (demo.episode1 false)
              demo.out_of_range "B"%string)
    as (e & s' & E & _ & _ & Ht & Hl & _).
  - apply wfb_sound. vm_compute. reflexivity.
  - vm_compute. reflexivity.
  - vm_compute. right. left. reflexivity.
  - vm_compute. reflexivity.
  - exists e, s'. auto.
Defined.

Lemma step_done_iff_end_time_witness :
  exists r s', step (ActDict demo.go) (demo.after1 false) = Ok r s' /\
    done_flag r = Some true /\ sim_time (sumo s') = 20.
Proof.
  destruct (step (ActDict demo.go) (demo.after1 false)) as [r s'|e s'] eqn:E.
  - destruct (step_done_iff_end_time (ActDict demo.go) (demo.after1 false) r s')
      as (done & Hd & Hiff & _).
    + apply wfb_sound. vm_compute. reflexivity.
    + exact E.
    + assert (Ht : sim_time (sumo s') = 20).
      { assert (G : sim_time (sumo (final (step (ActDict demo.go) (demo.after1 false)))) = 20)
          by (vm_compute; reflexivity).
        rewrite E in G. exact G. }
      exists r, s'. splits; auto.
      rewrite Hd. f_equal. apply Hiff. rewrite Ht. vm_compute. discriminate.
  - exfalso.
    assert (G : raised (step (ActDict demo.go) (demo.after1 false)) = false)
      by (vm_compute; reflexivity).
    rewrite E in G. discriminate G.
Defined.

Lemma step_records_queues_witness :
  exists r s' m, step (ActDict demo.go) (demo.episode1 false) = Ok r s' /\
    metrics s' = [m] /\
    PyDict.get (m_queue_lengths m) "A"%string = Some 2 /\
    PyDict.get (m_max_queues m) "A"%string = Some 2.
Proof.
  destruct (step (ActDict demo.go) (demo.episode1 false)) as [r s'|e s'] eqn:E.
  - destruct (step_records_queues (ActDict demo.go) (demo.episode1 false) r s')
      as (m & Hm & _ & _ & _ & Hq).
    + apply wfb_sound. vm_compute. reflexivity.
    + exact E.
    + exists r, s', m. split; [reflexivity|]. split; [exact Hm|].
      assert (G : s' = final (step (ActDict demo.go) (demo.episode1 false)))
        by (rewrite E; reflexivity).
      destruct (Hq "A"%string) as (sg & Hsg & Hql & Hmq & _).
      { rewrite G. vm_compute. left. reflexivity. }
      rewrite Hql, Hmq. rewrite G in Hsg. vm_compute in Hsg.
      injection Hsg as <-. split; reflexivity.
  - exfalso.
    assert (G : raised (step (ActDict demo.go) (demo.episode1 false)) = false)
      by (vm_compute; reflexivity).
    rewrite E in G. discriminate G.
Defined.

Lemma step_latches_every_controller_witness :
  (let s' := final (step (ActDict demo.go) demo.only_A) in
   latched (signals s') "B"%string = Some 0 /\
   filter (fun e => negb (is_tick e)) (sim_log (sumo s')) =
     filter (fun e => negb (is_tick e)) (sim_log (sumo demo.only_A))
     ++ [SetPhase "A"%string 1; Sense "A"%string]) /\
  exists s', step (ActDict demo.incomplete) demo.only_A = Raise (KeyError "B"%string) s' /\
             sumo s' = sumo demo.only_A.
Proof.
  assert (Hwf : wf demo.only_A) by (apply wfb_sound; vm_compute; reflexivity).
  split.
  - destruct (step_latches_every_controller (ActDict demo.go) demo.only_A demo.go Hwf)
      as [Hvalid _]; [vm_compute; reflexivity|].
    destruct Hvalid as [Hl Hlog]; [apply valid_actionb_sound; vm_compute; reflexivity|].
    split; [|exact Hlog].
    assert (G : exists sg, PyDict.get (signals demo.only_A) "B"%string = Some sg)
      by (vm_compute; eauto).
    destruct G as [sg G]. exact (Hl _ _ G).
  - destruct (step_latches_every_controller (ActDict demo.incomplete) demo.only_A
                demo.incomplete Hwf) as [_ Hmiss]; [vm_compute; reflexivity|].
    destruct (Hmiss "B"%string) as (e & s' & E & _ & Hsm & Hkey).
    + vm_compute. right. left. reflexivity.
    + vm_compute. reflexivity.
    + destruct Hkey as (ts0 & Hf & ->).
      * apply entries_in_table_sound. vm_compute. reflexivity.
      * assert (G : find (missing demo.incomplete) (PyDict.keys (signals demo.only_A))
                    = Some "B"%string) by (vm_compute; reflexivity).
        rewrite G in Hf. injection Hf as <-. exists s'. auto.
Defined.

Lemma staggered_activation_monotonic_witness :
  let s1 := final (reset demo.before_30th) in
  let s2 := final (reset (final (steps [ActDict demo.go] s1))) in
  signal_ids s1 = ["A"%string] /\ run s2 = 30 /\
  exists extra, signal_ids s2 = signal_ids s1 ++ extra /\ List.length extra = 1%nat.
Proof.
  intros s1 s2.
  destruct (staggered_activation_monotonic demo.before_30th [ActDict demo.go])
    as (extra & Hext & _ & Hone & _).
  - apply wfb_sound. vm_compute. reflexivity.
  - split; [vm_compute; reflexivity|]. split; [vm_compute; reflexivity|].
    exists extra. split; [exact Hext|]. apply Hone.
    vm_compute. split; [reflexivity | lia].
Defined.

Lemma metrics_log_complete_witness :
  exists rs sn rows,
    steps [ActDict demo.go; ActDict demo.go] (demo.episode1 false) = Ok rs sn /\
    PyDict.get (disk (final (reset sn))) (metrics_path sn) = Some rows /\
    List.length rows = 2%nat /\ map m_step (metrics sn) = [10; 20].
Proof.
  unfold demo.episode1.
  destruct (steps [ActDict demo.go; ActDict demo.go] (final (reset (demo.built false))))
    as [rs sn|e sn] eqn:E.
  - destruct (metrics_log_complete (demo.built false)
                [ActDict demo.go; ActDict demo.go] rs sn)
      as (_ & _ & Hst & Hlen & Hdisk & _).
    + apply wfb_sound. vm_compute. reflexivity.
    + exact E.
    + exists rs, sn, (map (csv_line (rt sn)) (metrics sn)).
      splits; auto. rewrite Hst.
      assert (G : match steps [ActDict demo.go; ActDict demo.go]
                          (final (reset (demo.built false))) with
                  | Ok rs0 _ => map fst rs0 = [10; 20]
                  | Raise _ _ => False
                  end) by (vm_compute; reflexivity).
      now rewrite E in G.
  - exfalso.
    assert (G : raised (steps [ActDict demo.go; ActDict demo.go]
                          (final (reset (demo.built false))))
                = false) by (vm_compute; reflexivity).
    rewrite E in G. discriminate G.
Defined.

Lemma demo_built_returns gymma :
  init demo.runtime (demo.args gymma) = Ok tt (demo.built gymma).
Proof.
  unfold demo.built.
  destruct (init demo.runtime (demo.args gymma)) as [[] s|e s] eqn:E; [reflexivity|].
  exfalso.
  assert (G : raised (init demo.runtime (demo.args gymma)) = false)
    by (destruct gymma; vm_compute; reflexivity).
  rewrite E in G. discriminate G.
Qed.

Lemma phase_tables_derived_once_witness :
  exists logic rest,
    sim_programs (sumo (demo.built false)) "A"%string = logic :: rest /\
    PyDict.get (phases (demo.built false)) "A"%string = Some (filter keep_phase logic) /\
    List.length (filter keep_phase logic) = 2%nat.
Proof.
  destruct (phase_tables_derived_once demo.runtime (demo.args false) (demo.built false)
              (demo_built_returns false)) as (Hph & _).
  destruct (Hph "A"%string) as (logic & rest & Hp & Hg & _).
  - vm_compute. left. reflexivity.
  - exists logic, rest. splits; auto.
    assert (G : PyDict.get (phases (demo.built false)) "A"%string
                = Some [mkPhase 30 "GGrr"; mkPhase 30 "rrGG"]) by (vm_compute; reflexivity).
    rewrite Hg in G. injection G as ->. reflexivity.
Defined.

Lemma conventions_round_trip_witness :
  exists r s' obss rww done,
    step (ActSeq [1; 0]) (demo.episode1 true) = Ok r s' /\
    r = RetSeq obss rww [done] (run s') /\
    along (ts_order (demo.episode1 true))
          (mapping_of (ts_order (demo.episode1 true)) [1; 0]) = Some [1; 0] /\
    along (ts_order (demo.episode1 true))
          (call demo.pressure_fn (signals s')) = Some rww.
Proof.
  destruct (step (ActSeq [1; 0]) (demo.episode1 true)) as [r s'|e s'] eqn:E.
  - destruct (conventions_round_trip [1; 0] (demo.episode1 true) r s')
      as (_ & _ & Hact & obss & rww & done & Hr & _ & _ & Hrw & _).
    + apply wfb_sound. vm_compute. reflexivity.
    + vm_compute. reflexivity.
    + vm_compute. repeat constructor; cbn; intuition discriminate.
    + vm_compute. reflexivity.
    + exact E.
    + exists r, s', obss, rww, done. splits; auto.
  - exfalso.
    assert (G : raised (step (ActSeq [1; 0]) (demo.episode1 true)) = false)
      by (vm_compute; reflexivity).
    rewrite E in G. discriminate G.
Defined.
